(** * ACGAN inpainting of masked MNIST digits: the masking routine, the
      evaluation metrics and the training loop of
      [models/acgan-modified/main.py], embedded in Rocq.

    Arrays are NumPy arrays: a shape and a row-major buffer.  Finite
    floating-point values are rationals, so array elements are taken in
    [Q]; the only arithmetic the routines perform on images is a product
    with 0 or 1 and the metrics are quotients of two counts.  Python
    exceptions are an error type, and code that draws random numbers or
    calls the deep-learning framework runs in a state-and-exception
    monad. *)

From Stdlib Require Import ZArith QArith Lia List Bool Reals Lra.
From Stdlib Require Lqa.
From stdpp Require Import base list.
Import ListNotations.

#[local] Open Scope Z_scope.

(** ** Python exceptions and the state-and-exception monad *)

Inductive pyerr : Type :=
| AssertionError
| IndexError
| ValueError
| ZeroDivisionError.

Definition M (St A : Type) : Type := St -> pyerr + (A * St).

Definition ret {St A : Type} (a : A) : M St A := fun s => inr (a, s).

Definition bind {St A B : Type} (m : M St A) (k : A -> M St B) : M St B :=
  fun s => match m s with
           | inl e => inl e
           | inr (a, s') => k a s'
           end.

Definition raise {St A : Type} (e : pyerr) : M St A := fun _ => inl e.

Notation "'let*' x ':=' m 'in' k" := (bind m (fun x => k))
  (at level 10, x pattern, m at level 100, k at level 200).

(** [assert cond] *)
Definition py_assert {St : Type} (cond : bool) : M St unit :=
  if cond then ret tt else raise AssertionError.

(** [l[i]] for a list and a non-negative index. *)
Definition py_getitem {St A : Type} (l : list A) (i : nat) : M St A :=
  match l !! i with
  | Some a => ret a
  | None => raise IndexError
  end.

(** [for i in items: a = body(i, a)] *)
Fixpoint for_each {St I A : Type} (body : I -> A -> M St A) (items : list I) (a : A) : M St A :=
  match items with
  | [] => ret a
  | i :: items' => let* a' := body i a in for_each body items' a'
  end.

(** [[f(i) for i in items]] *)
Fixpoint list_comprehension {St I A : Type} (f : I -> M St A) (items : list I) : M St (list A) :=
  match items with
  | [] => ret []
  | i :: items' => let* a := f i in
                let* rest := list_comprehension f items' in
                ret (a :: rest)
  end.

(** [range(lo, hi)] *)
Definition range (lo hi : Z) : list Z :=
  map (fun k => lo + Z.of_nat k) (seq 0 (Z.to_nat (hi - lo))).

(** ** NumPy arrays *)

Record ndarray : Type := NdArray { shape : list nat; data : list Q }.

(** The result of a true division of two counts: a finite value, or
    what NumPy returns for a zero divisor. *)
Inductive npfloat : Type :=
| Finite (q : Q)
| NaN
| PosInf.

Module np.

Definition size_of (sh : list nat) : nat := fold_right Nat.mul 1%nat sh.

(** [np.zeros(sh)] *)
Definition zeros (sh : list nat) : ndarray :=
  {| shape := sh; data := replicate (size_of sh) 0%Q |}.

(** Width of the last axis of a two-dimensional array. *)
Definition ncols (a : ndarray) : nat :=
  match shape a with
  | [_; w] => w
  | _ => 0%nat
  end.

(** [a[x][y]] of a two-dimensional array. *)
Definition getitem2 (a : ndarray) (x y : nat) : option Q :=
  data a !! (x * ncols a + y)%nat.

(** [a[x][y][ch]] of a three-dimensional array. *)
Definition getitem3 (a : ndarray) (x y ch : nat) : option Q :=
  match shape a with
  | [_; w; c] => data a !! ((x * w + y) * c + ch)%nat
  | _ => None
  end.

(** [a[x][y] = v] on a two-dimensional array. *)
Definition setitem2 (a : ndarray) (x y : nat) (v : Q) : ndarray :=
  {| shape := shape a; data := <[(x * ncols a + y)%nat := v]> (data a) |}.

(** [a[:,:,0]] of a three-dimensional array: the index 0 must exist on
    the last axis. *)
Definition channel0 {St : Type} (a : ndarray) : M St ndarray :=
  match shape a with
  | [h; w; c] =>
      if (c =? 0)%nat then raise IndexError
      else ret {| shape := [h; w];
                  data := map (fun k => nth (k * c) (data a) 0%Q) (seq 0 (h * w)) |}
  | _ => raise IndexError
  end.

(** [np.expand_dims(a, axis)] for the axis after the last one. *)
Definition expand_dims_last (a : ndarray) : ndarray :=
  {| shape := shape a ++ [1%nat]; data := data a |}.

(** [np.multiply(a, b)] of two arrays of the same shape. *)
Definition multiply (a b : ndarray) : ndarray :=
  {| shape := shape a; data := zip_with Qmult (data a) (data b) |}.

(** *** Scalars and reductions used by the metrics *)

(** [n / d] for a NumPy integer [n] and a length [d]. *)
Definition true_divide (n d : nat) : npfloat :=
  match d with
  | O => match n with O => NaN | _ => PosInf end
  | _ => Finite (Z.of_nat n # Pos.of_nat d)
  end.

(** [np.sum(b)] of a boolean array. *)
Definition sum (b : list bool) : nat :=
  fold_left (fun acc (x : bool) => if x then S acc else acc) b 0%nat.

(** [np.argmax(row)]: the index of the first occurrence of the maximum;
    an empty row raises ValueError. *)
Fixpoint argmax_from (best : Q) (best_i i : nat) (rest : list Q) : nat :=
  match rest with
  | [] => best_i
  | v :: rest' =>
      if Qlt_le_dec best v then argmax_from v i (S i) rest'
      else argmax_from best best_i (S i) rest'
  end.

Definition argmax {St : Type} (row : list Q) : M St Z :=
  match row with
  | [] => raise ValueError
  | v :: rest => ret (Z.of_nat (argmax_from v 0 1 rest))
  end.

(** [np.argmax(rows, axis=1)] *)
Definition argmax_rows {St : Type} (rows : list (list Q)) : M St (list Z) :=
  list_comprehension argmax rows.

(** [a == b] for two one-dimensional arrays: the shapes must agree. *)
Definition equal {St : Type} (a b : list Z) : M St (list bool) :=
  if (length a =? length b)%nat then ret (zip_with Z.eqb a b)
  else raise ValueError.

(** [a == i] for an array and a scalar. *)
Definition equal_scalar (a : list Z) (i : Z) : list bool :=
  map (fun v => v =? i) a.

(** [np.where(cond)[0]] *)
Definition where_true (cond : list bool) : list nat :=
  List.filter (fun k => nth k cond false) (seq 0 (length cond)).

(** [a[indices]] for an array of non-negative indices. *)
Definition take {St A : Type} (a : list A) (indices : list nat) : M St (list A) :=
  list_comprehension (py_getitem a) indices.

(** [a[i]] for an integer index, which may be negative. *)
Definition item {St A : Type} (a : list A) (i : Z) : M St A :=
  if i <? 0 then
    (if - i <=? Z.of_nat (length a)
     then py_getitem a (Z.to_nat (Z.of_nat (length a) + i))
     else raise IndexError)
  else py_getitem a (Z.to_nat i).

End np.

(** [a.shape == sh] *)
Definition shape_eqb (s1 s2 : list nat) : bool := bool_decide (s1 = s2).

(** An array whose buffer has the size its shape announces. *)
Definition well_formed (a : ndarray) : Prop :=
  length (data a) = np.size_of (shape a).

(** ** The [random] module *)

(** The generator's state: the outcome of every future call of
    [random.randint(lo, hi)], by call number, and the number of calls
    made so far. *)
Record RandomState : Type := MkRandom
  { outcome : Z -> Z -> nat -> Z; calls : nat }.

Module random.

Definition randint (lo hi : Z) : M RandomState Z :=
  fun s => inr (outcome s lo hi (calls s),
                {| outcome := outcome s; calls := S (calls s) |}).

End random.

(** [random.randint(lo, hi)] returns an integer N with lo <= N <= hi. *)
Definition randint_contract (s : RandomState) : Prop :=
  forall lo hi n, lo <= hi -> lo <= outcome s lo hi n <= hi.

(** ** The masking routine *)

Definition RANDOM_WALK_LENGTH : nat := 40.
Definition VISIBLE_RADIUS : Z := 5.

(** The position update of one step of the walk. *)
Definition move (agent_position : Z * Z) (step : Z) : Z * Z :=
  if step =? 0 then (fst agent_position - 1, snd agent_position)
  else if step =? 1 then (fst agent_position, snd agent_position + 1)
  else if step =? 2 then (fst agent_position + 1, snd agent_position)
  else if step =? 3 then (fst agent_position, snd agent_position - 1)
  else agent_position.

(** [if 0 <= x < 28 and 0 <= y < 28: mask[x][y] = 1] *)
Definition mark_cell (m : ndarray) (x y : Z) : ndarray :=
  if (0 <=? x) && (x <? 28) && ((0 <=? y) && (y <? 28))
  then np.setitem2 m (Z.to_nat x) (Z.to_nat y) 1%Q
  else m.

(** The two nested loops that update the mask around a position. *)
Definition update_mask (m : ndarray) (agent_position : Z * Z) : ndarray :=
  fold_left
    (fun m x =>
       fold_left (fun m y => mark_cell m x y)
         (range (snd agent_position - VISIBLE_RADIUS)
                (snd agent_position + VISIBLE_RADIUS + 1)) m)
    (range (fst agent_position - VISIBLE_RADIUS)
           (fst agent_position + VISIBLE_RADIUS + 1)) m.

(** The body of the loop over the walk: move, then update the mask. *)
Definition walk_body (random_walk_steps : list Z) (i : nat)
    (st : (Z * Z) * ndarray) : M RandomState ((Z * Z) * ndarray) :=
  let* step := py_getitem random_walk_steps i in
  let agent_position := move (fst st) step in
  ret (agent_position, update_mask (snd st) agent_position).

(** The start position, the steps and the mask array that [mask] builds
    before it applies the mask. *)
Definition build_mask : M RandomState ndarray :=
  let* r := random.randint 7 20 in
  let* c := random.randint 7 20 in
  let* random_walk_steps :=
    list_comprehension (fun _ : nat => random.randint 0 3)
                       (seq 0 RANDOM_WALK_LENGTH) in
  let* st := for_each (walk_body random_walk_steps) (seq 0 RANDOM_WALK_LENGTH)
                      ((r, c), np.zeros [28; 28]%nat) in
  ret (snd st).

(** [mask(image, walk_length, visible_radius)] *)
Definition mask (image : ndarray) (walk_length : Z) (visible_radius : Z)
    : M RandomState ndarray :=
  let* image := (if (length (shape image) =? 3)%nat
                 then np.channel0 image else ret image) in
  let* _ := py_assert (shape_eqb (shape image) [28; 28]%nat) in
  let* m := build_mask in
  ret (np.multiply image m).

(** [mask(image)]: both keyword parameters at their defaults. *)
Definition mask_default (image : ndarray) : M RandomState ndarray :=
  mask image (Z.of_nat RANDOM_WALK_LENGTH) VISIBLE_RADIUS.

(** ** The visibility region, as the walk describes it *)

(** The displacement of a step: 0 decrements the row, 1 increments the
    column, 2 increments the row, 3 decrements the column. *)
Definition direction (step : Z) : Z * Z :=
  match step with
  | 0 => (-1, 0)
  | 1 => (0, 1)
  | 2 => (1, 0)
  | 3 => (0, -1)
  | _ => (0, 0)
  end.

Definition chebyshev (p q : Z * Z) : Z :=
  Z.max (Z.abs (fst p - fst q)) (Z.abs (snd p - snd q)).

(** The start position and the steps a call of [mask] draws in state [s]:
    two calls of [randint(7, 20)], then one call of [randint(0, 3)] per
    step. *)
Definition start_position (s : RandomState) : Z * Z :=
  (outcome s 7 20 (calls s), outcome s 7 20 (S (calls s))).

Definition step_drawn (s : RandomState) (k : nat) : Z :=
  outcome s 0 3 (calls s + 2 + k)%nat.

(** The agent's position after [k] steps. *)
Fixpoint position (s : RandomState) (k : nat) : Z * Z :=
  match k with
  | O => start_position s
  | S k' => let p := position s k' in
            let d := direction (step_drawn s k') in
            (fst p + fst d, snd p + snd d)
  end.

(** The cell (x, y) of the grid is within the visible radius of the
    position reached after one of the steps 1 .. RANDOM_WALK_LENGTH. *)
Definition visibleb (s : RandomState) (x y : nat) : bool :=
  existsb (fun k => chebyshev (Z.of_nat x, Z.of_nat y) (position s k) <=? VISIBLE_RADIUS)
          (seq 1 RANDOM_WALK_LENGTH).

Definition visible (s : RandomState) (x y : nat) : Prop :=
  exists k, (1 <= k <= RANDOM_WALK_LENGTH)%nat /\
            chebyshev (Z.of_nat x, Z.of_nat y) (position s k) <= VISIBLE_RADIUS.

(** The cells of the 28x28 grid that an array marks with 1. *)
Definition is_one (o : option Q) : bool :=
  match o with
  | Some q => Qeq_bool q 1
  | None => false
  end.

Definition grid_cells : list (nat * nat) := list_prod (seq 0 28) (seq 0 28).

Definition marked_cells (m : ndarray) : list (nat * nat) :=
  List.filter (fun c => is_one (np.getitem2 m (fst c) (snd c))) grid_cells.

(** The cells of the square of 11x11 cells whose first cell is (a, b). *)
Definition in_block (a b : nat) (c : nat * nat) : bool :=
  ((a <=? fst c)%nat && (fst c <=? a + 10)%nat)
  && ((b <=? snd c)%nat && (snd c <=? b + 10)%nat).

(** A 28x28 array with its full buffer. *)
Definition is_grid (m : ndarray) : Prop :=
  shape m = [28; 28]%nat /\ length (data m) = 784%nat.

(** The cell (x, y) lies in the square of radius VISIBLE_RADIUS around [p]. *)
Definition window (p : Z * Z) (x y : nat) : bool :=
  chebyshev (Z.of_nat x, Z.of_nat y) p <=? VISIBLE_RADIUS.

(** The positions the loop of [mask] goes through, one per step. *)
Fixpoint trajectory (p : Z * Z) (steps : list Z) : list (Z * Z) :=
  match steps with
  | [] => []
  | step :: rest => move p step :: trajectory (move p step) rest
  end.

(** One iteration of the loop of [mask] on the pair of the position and
    the mask array. *)
Definition walk_step (st : (Z * Z) * ndarray) (step : Z) : (Z * Z) * ndarray :=
  (move (fst st) step, update_mask (snd st) (move (fst st) step)).

(** The assignments [mask[x][y] = 1] of a list of cells, in order. *)
Definition mark_cells (m : ndarray) (cells : list (Z * Z)) : ndarray :=
  fold_left (fun m c => mark_cell m (fst c) (snd c)) cells m.

(** The state of the generator after [n] more calls. *)
Definition advance (s : RandomState) (n : nat) : RandomState :=
  {| outcome := outcome s; calls := (calls s + n)%nat |}.

(** The steps drawn by the list comprehension of [mask]. *)
Definition steps_drawn (s : RandomState) : list Z :=
  map (step_drawn s) (seq 0 RANDOM_WALK_LENGTH).

(** The mask array at the end of the loop of [mask] called in state [s]. *)
Definition mask_array (s : RandomState) : ndarray :=
  snd (fold_left walk_step (steps_drawn s)
                 (start_position s, np.zeros [28; 28]%nat)).


(** ** The deep-learning framework and the environment *)

Definition num_classes : nat := 10.

(** The models the class builds, as the framework provides them: the
    weights of the generator and of the discriminator are one abstract
    value; prediction runs the network on each sample of the batch;
    [train_on_batch] returns the updated weights and the list of losses
    and metrics the model was compiled with. *)
Class Keras : Type := {
  Net : Type;
  generator_predict : Net -> ndarray -> ndarray;
  discriminator_predict : Net -> ndarray -> Q * list Q;
  discriminator_train_on_batch :
    Net -> list ndarray -> list Q -> list Z -> Net * list Q;
  combined_train_on_batch :
    bool -> Net -> list ndarray -> list Q -> list Z -> Net * list Q;
  (* the generator ends in Conv2D(channels = 1, padding = same) *)
  generator_output_shape :
    forall net x, shape (generator_predict net x) = [28; 28; 1]%nat;
  (* the label head is Dense(num_classes) *)
  discriminator_classes :
    forall net x, length (snd (discriminator_predict net x)) = num_classes;
  (* two losses and metrics = [accuracy]: five values *)
  discriminator_metrics :
    forall net x v l, length (snd (discriminator_train_on_batch net x v l)) = 5%nat;
  (* two losses and no metric: three values *)
  combined_metrics :
    forall t net x v l, length (snd (combined_train_on_batch t net x v l)) = 3%nat
}.

(** The state of [np.random]: the outcome of every future call of
    [np.random.randint(low, high, size)], by call number and position in
    the returned array, and the number of calls made so far. *)
Record NpRandomState : Type := MkNpRandom
  { np_outcome : Z -> Z -> nat -> nat -> Z; np_calls : nat }.

(** [np.random.randint(low, high, size)] returns integers N with
    low <= N < high. *)
Definition np_randint_contract (s : NpRandomState) : Prop :=
  forall low high n j, low < high -> low <= np_outcome s low high n j < high.

Inductive figure : Type :=
| accuracy_png
| recall_png
| sample_png (epoch : nat).

Inductive saved_model : Type :=
| saved_generator
| saved_discriminator.

(** The calls the program makes to the framework, to [np.random], to the
    console and to the file system, in the order it makes them. *)
Inductive Event : Type :=
| EvNpRandint (low high : Z) (size : nat)
| EvGeneratorPredict (x : list ndarray)
| EvDiscriminatorPredict (x : list ndarray)
| EvDiscriminatorTrain (x : list ndarray) (validity : list Q) (labels : list Z)
| EvCombinedTrain (discriminator_trainable : bool)
                  (x : list ndarray) (validity : list Q) (labels : list Z)
| EvPrint (epoch : nat) (d_loss acc op_acc g_loss : Q)
| EvSaveModel (model_name : saved_model)
| EvSavefig (file : figure).

Record Env : Type := MkEnv
  { py_random : RandomState; np_random : NpRandomState; trace : list Event }.

(** Run a computation of the [random] module in the environment. *)
Definition with_random {A : Type} (m : M RandomState A) : M Env A :=
  fun e => match m (py_random e) with
           | inl err => inl err
           | inr (a, r) =>
               inr (a, {| py_random := r; np_random := np_random e;
                          trace := trace e |})
           end.

Definition emit (ev : Event) : M Env unit :=
  fun e => inr (tt, {| py_random := py_random e; np_random := np_random e;
                       trace := trace e ++ [ev] |}).

(** [np.random.randint(low, high, size)] *)
Definition np_random_randint (low high : Z) (size : nat) : M Env (list Z) :=
  fun e =>
    if high <=? low then inl ValueError
    else
      let r := np_random e in
      inr (map (np_outcome r low high (np_calls r)) (seq 0 size),
           {| py_random := py_random e;
              np_random := {| np_outcome := np_outcome r; np_calls := S (np_calls r) |};
              trace := trace e ++ [EvNpRandint low high size] |}).

(** [a % b] *)
Definition py_mod {St : Type} (a b : Z) : M St Z :=
  if b =? 0 then raise ZeroDivisionError else ret (a mod b).

(** ** The class [ACGAN] *)

Section ACGAN_class.

Context {K : Keras}.

(** The attributes of the object that the methods read or write.  The
    three models share their weights, held in [net];
    [discriminator_trainable] is the value of
    [self.discriminator.trainable] with which the combined model was
    compiled. *)
Record ACGAN : Type := MkACGAN {
  net : Net;
  discriminator_trainable : bool;
  X_train : list ndarray;
  y_train : list Z;
  X_test : list ndarray;
  y_test : list Z;
  X_test_masked : list ndarray;
  accuracy_scores : list (npfloat * nat);
  recall_scores : list (list npfloat * nat)
}.

Definition set_net (self : ACGAN) (n : Net) : ACGAN :=
  {| net := n; discriminator_trainable := discriminator_trainable self;
     X_train := X_train self; y_train := y_train self;
     X_test := X_test self; y_test := y_test self;
     X_test_masked := X_test_masked self;
     accuracy_scores := accuracy_scores self;
     recall_scores := recall_scores self |}.

(** [self.accuracy_scores.append(score)] *)
Definition append_accuracy (self : ACGAN) (score : npfloat * nat) : ACGAN :=
  {| net := net self; discriminator_trainable := discriminator_trainable self;
     X_train := X_train self; y_train := y_train self;
     X_test := X_test self; y_test := y_test self;
     X_test_masked := X_test_masked self;
     accuracy_scores := accuracy_scores self ++ [score];
     recall_scores := recall_scores self |}.

(** [self.recall_scores.append(score)] *)
Definition append_recall (self : ACGAN) (score : list npfloat * nat) : ACGAN :=
  {| net := net self; discriminator_trainable := discriminator_trainable self;
     X_train := X_train self; y_train := y_train self;
     X_test := X_test self; y_test := y_test self;
     X_test_masked := X_test_masked self;
     accuracy_scores := accuracy_scores self;
     recall_scores := recall_scores self ++ [score] |}.

(** [ACGAN.__init__], given the freshly built models and the data set
    that [mnist.load_data()] returns. *)
Definition ACGAN_init (net0 : Net)
    (mnist : (list ndarray * list Z) * (list ndarray * list Z)) : M Env ACGAN :=
  let* X_test_masked :=
    with_random (list_comprehension mask_default (fst (snd mnist))) in
  ret {| net := net0; discriminator_trainable := false;
         X_train := fst (fst mnist); y_train := snd (fst mnist);
         X_test := fst (snd mnist); y_test := snd (snd mnist);
         X_test_masked := X_test_masked;
         accuracy_scores := []; recall_scores := [] |}.

(** [self.generator.predict(x)] *)
Definition generator_predict_batch (self : ACGAN) (x : list ndarray)
    : M Env (list ndarray) :=
  let* _ := emit (EvGeneratorPredict x) in
  ret (map (generator_predict (net self)) x).

(** [self.discriminator.predict(x)] *)
Definition discriminator_predict_batch (self : ACGAN) (x : list ndarray)
    : M Env (list Q * list (list Q)) :=
  let* _ := emit (EvDiscriminatorPredict x) in
  ret (map (fun img => fst (discriminator_predict (net self) img)) x,
       map (fun img => snd (discriminator_predict (net self) img)) x).

(** [self.discriminator.train_on_batch(x, [validity, labels])] *)
Definition discriminator_train (self : ACGAN) (x : list ndarray)
    (validity : list Q) (labels : list Z) : M Env (ACGAN * list Q) :=
  let* _ := emit (EvDiscriminatorTrain x validity labels) in
  let r := discriminator_train_on_batch (net self) x validity labels in
  ret (set_net self (fst r), snd r).

(** [self.combined.train_on_batch(x, [validity, labels])] *)
Definition combined_train (self : ACGAN) (x : list ndarray)
    (validity : list Q) (labels : list Z) : M Env (ACGAN * list Q) :=
  let* _ := emit (EvCombinedTrain (discriminator_trainable self) x validity labels) in
  let r := combined_train_on_batch (discriminator_trainable self)
                                   (net self) x validity labels in
  ret (set_net self (fst r), snd r).

(** [test_masked_accuracy(self, epoch)] *)
Definition class_recall (self : ACGAN) (classifications : list (list Q)) (i : nat)
    : M Env npfloat :=
  let indices := np.where_true (np.equal_scalar (y_test self) (Z.of_nat i)) in
  let* rows := np.take classifications indices in
  let* predicted_labels := np.argmax_rows rows in
  ret (np.true_divide (np.sum (np.equal_scalar predicted_labels (Z.of_nat i)))
                      (length indices)).

Definition test_masked_accuracy (self : ACGAN) (epoch : nat) : M Env ACGAN :=
  let* out := discriminator_predict_batch self (X_test_masked self) in
  let classifications := snd out in
  let* predicted_labels := np.argmax_rows classifications in
  let* hits := np.equal predicted_labels (y_test self) in
  let accuracy := np.true_divide (np.sum hits) (length (y_test self)) in
  let self := append_accuracy self (accuracy, epoch) in
  let* _ := emit (EvSavefig accuracy_png) in
  let* recalls := list_comprehension (class_recall self classifications) (seq 0 10) in
  let self := append_recall self (recalls, epoch) in
  let* _ := emit (EvSavefig recall_png) in
  ret self.

(** [sample_images(self, epoch)] *)
Definition sample_images (self : ACGAN) (epoch : nat) : M Env unit :=
  let r := 10%nat in
  let c := 10%nat in
  let* masked_imgs :=
    with_random (list_comprehension mask_default (take (r * c) (X_test self))) in
  let* gen_imgs := generator_predict_batch self masked_imgs in
  let gen_imgs :=
    map (fun a => {| shape := shape a;
                     data := map (fun v => (1 # 2) * v + (1 # 2))%Q (data a) |})
        gen_imgs in
  let* _ :=
    for_each
      (fun (i : nat) (cnt : nat) =>
         for_each
           (fun (j : nat) (cnt : nat) =>
              let* img := py_getitem gen_imgs cnt in
              let* _ := np.channel0 img in
              ret (S cnt))
           (seq 0 c) cnt)
      (seq 0 r) 0%nat in
  emit (EvSavefig (sample_png epoch)).

(** [save_model(self)] *)
Definition save_model (self : ACGAN) : M Env unit :=
  let* _ := emit (EvSaveModel saved_generator) in
  emit (EvSaveModel saved_discriminator).

(** [(X.astype(np.float32) - 127.5) / 127.5] on one image. *)
Definition normalize (a : ndarray) : ndarray :=
  {| shape := shape a;
     data := map (fun v => (v - (255 # 2)) / (255 # 2))%Q (data a) |}.

(** The body of the loop of [train] for one epoch. *)
Definition train_epoch (X_train : list ndarray) (y_train : list Z)
    (valid fake : list Q) (batch_size : nat) (sample_interval : Z)
    (epoch : nat) (self : ACGAN) : M Env ACGAN :=
  let* idx := np_random_randint 0 (Z.of_nat (length X_train)) batch_size in
  let* imgs := list_comprehension (np.item X_train) idx in
  let* masked_imgs := with_random (list_comprehension mask_default imgs) in
  let* gen_imgs := generator_predict_batch self masked_imgs in
  let* img_labels := list_comprehension (np.item y_train) idx in
  let* r1 := discriminator_train self imgs valid img_labels in
  let d_loss_real := snd r1 in
  let* r2 := discriminator_train (fst r1) gen_imgs fake img_labels in
  let d_loss_fake := snd r2 in
  let d_loss := map (Qmult (1 # 2)) (zip_with Qplus d_loss_real d_loss_fake) in
  let* r3 := combined_train (fst r2) masked_imgs valid img_labels in
  let g_loss := snd r3 in
  let self := fst r3 in
  let* d0 := py_getitem d_loss 0 in
  let* d3 := py_getitem d_loss 3 in
  let* d4 := py_getitem d_loss 4 in
  let* g0 := py_getitem g_loss 0 in
  let* _ := emit (EvPrint epoch d0 (100 * d3)%Q (100 * d4)%Q g0) in
  let* m := py_mod (Z.of_nat epoch) sample_interval in
  if m =? 0 then
    let* _ := save_model self in
    let* _ := sample_images self epoch in
    test_masked_accuracy self epoch
  else ret self.

(** [train(self, epochs, batch_size, sample_interval)] *)
Definition train (self : ACGAN) (epochs batch_size : nat) (sample_interval : Z)
    : M Env ACGAN :=
  let X_train := map (fun a => np.expand_dims_last (normalize a)) (X_train self) in
  let y_train := y_train self in
  let valid := replicate batch_size 1%Q in
  let fake := replicate batch_size 0%Q in
  for_each (train_epoch X_train y_train valid fake batch_size sample_interval)
           (seq 0 epochs) self.

End ACGAN_class.

(** ** The metrics, as counts over the test set *)

(** The environment after more events. *)
Definition logged (e : Env) (evs : list Event) : Env :=
  {| py_random := py_random e; np_random := np_random e;
     trace := trace e ++ evs |}.

(** The label that [np.argmax] gives for a row of class probabilities. *)
Definition label_of (row : list Q) : Z :=
  match row with
  | [] => 0
  | v :: rest => Z.of_nat (np.argmax_from v 0 1 rest)
  end.

(** [i] is the index of the first occurrence of the maximum of [row]. *)
Definition is_argmax (row : list Q) (i : nat) : Prop :=
  exists v, row !! i = Some v /\
    (forall j w, row !! j = Some w -> (w <= v)%Q) /\
    (forall j w, (j < i)%nat -> row !! j = Some w -> (w < v)%Q).

(** The number of indices below [n] that satisfy [P]. *)
Definition count_indices (n : nat) (P : nat -> bool) : nat :=
  length (List.filter P (seq 0 n)).

Section Metrics.

Context {K : Keras}.

(** The class probabilities the discriminator gives to the masked test
    images. *)
Definition classifications (self : ACGAN) : list (list Q) :=
  map (fun img => snd (discriminator_predict (net self) img)) (X_test_masked self).

(** The label predicted for the [k]-th masked test image: the argmax of the
    class probabilities of the discriminator. *)
Definition predicted_label (self : ACGAN) (k : nat) : option Z :=
  (fun img => label_of (snd (discriminator_predict (net self) img)))
    <$> (X_test_masked self !! k).

(** The number of masked test images whose predicted label is the true
    label. *)
Definition correct_count (self : ACGAN) : nat :=
  count_indices (length (y_test self))
    (fun k => bool_decide (predicted_label self k = y_test self !! k)).

(** The number of test images of true label [i]. *)
Definition class_total (self : ACGAN) (i : Z) : nat :=
  count_indices (length (y_test self))
    (fun k => bool_decide (y_test self !! k = Some i)).

(** The number of test images of true label [i] whose predicted label is
    [i]. *)
Definition class_hits (self : ACGAN) (i : Z) : nat :=
  count_indices (length (y_test self))
    (fun k => bool_decide (y_test self !! k = Some i)
              && bool_decide (predicted_label self k = Some i)).

End Metrics.

(** ** What one epoch of [train] does *)

(** A grayscale image of 28x28 pixels. *)
Definition image28 (a : ndarray) : Prop :=
  shape a = [28; 28]%nat /\ well_formed a.

(** An image on which [mask] returns: the product of its 28x28 view with
    the mask array, after 42 calls of [random.randint]. *)
Definition maskable (img : ndarray) : Prop :=
  exists gray, shape gray = [28; 28]%nat /\
    forall s, mask_default img s = inr (np.multiply gray (mask_array s), advance s 42).

Section Training.

Context {K : Keras}.

(** The data set is the one the program expects: MNIST-like arrays of
    28x28 images with one label each, at least the 100 test images that
    [sample_images] plots, and one masked image per test label. *)
Definition dataset_ok (self : ACGAN) : Prop :=
  X_train self <> [] /\
  Forall image28 (X_train self) /\
  length (y_train self) = length (X_train self) /\
  Forall image28 (X_test self) /\
  (100 <= length (X_test self))%nat /\
  length (X_test_masked self) = length (y_test self).

(** The attributes that no method changes after [__init__]. *)
Definition same_data (self self' : ACGAN) : Prop :=
  X_train self' = X_train self /\ y_train self' = y_train self /\
  X_test self' = X_test self /\ y_test self' = y_test self /\
  X_test_masked self' = X_test_masked self /\
  discriminator_trainable self' = discriminator_trainable self.

(** The scores an evaluation at [epoch] appends, and no other change of
    the scores. *)
Definition scores_appended (self self' : ACGAN) (epoch : nat) : Prop :=
  accuracy_scores self'
  = accuracy_scores self
    ++ [(np.true_divide (correct_count self') (length (y_test self')), epoch)] /\
  recall_scores self'
  = recall_scores self
    ++ [(map (fun i => np.true_divide (class_hits self' (Z.of_nat i))
                                      (class_total self' (Z.of_nat i)))
             (seq 0 10), epoch)].

Definition scores_unchanged (self self' : ACGAN) : Prop :=
  accuracy_scores self' = accuracy_scores self /\
  recall_scores self' = recall_scores self.

(** The training inputs as [train] configures them. *)
Definition configured (self : ACGAN) : list ndarray :=
  map (fun a => np.expand_dims_last (normalize a)) (X_train self).

(** The events of the evaluation at a sample interval:
    [save_model], [sample_images], [test_masked_accuracy]. *)
Definition evaluation_events (self : ACGAN) (epoch : nat) (sampled : list ndarray)
    : list Event :=
  [EvSaveModel saved_generator; EvSaveModel saved_discriminator;
   EvGeneratorPredict sampled; EvSavefig (sample_png epoch);
   EvDiscriminatorPredict (X_test_masked self);
   EvSavefig accuracy_png; EvSavefig recall_png].

(** One epoch taking the object and the environment from [(self, e)] to
    [(self', e')]: the batch drawn, its masked images, and the calls to
    the models in their order. *)
Definition epoch_spec (self : ACGAN) (e : Env) (batch_size : nat)
    (sample_interval : Z) (epoch : nat) (self' : ACGAN) (e' : Env) : Prop :=
  exists (idx : list Z) (imgs masked_imgs : list ndarray) (img_labels : list Z)
         (r : RandomState) (d0 d3 d4 g0 : Q) (tail : list Event),
    let valid := replicate batch_size 1%Q in
    let fake := replicate batch_size 0%Q in
    let gen_imgs := map (generator_predict (net self)) masked_imgs in
    let r1 := discriminator_train_on_batch (net self) imgs valid img_labels in
    let r2 := discriminator_train_on_batch (fst r1) gen_imgs fake img_labels in
    let r3 := combined_train_on_batch (discriminator_trainable self) (fst r2)
                                      masked_imgs valid img_labels in
    (* a random batch of batch_size real images and their labels *)
    length idx = batch_size /\
    Forall2 (fun i img => 0 <= i < Z.of_nat (length (X_train self)) /\
                          configured self !! Z.to_nat i = Some img) idx imgs /\
    Forall2 (fun i l => y_train self !! Z.to_nat i = Some l) idx img_labels /\
    (* each image of the batch is masked *)
    list_comprehension mask_default imgs (py_random e) = inr (masked_imgs, r) /\
    Forall (fun m => shape m = [28; 28]%nat) masked_imgs /\
    (* the calls, in order *)
    trace e' = trace e ++
      [EvNpRandint 0 (Z.of_nat (length (X_train self))) batch_size;
       EvGeneratorPredict masked_imgs;
       EvDiscriminatorTrain imgs valid img_labels;
       EvDiscriminatorTrain gen_imgs fake img_labels;
       EvCombinedTrain (discriminator_trainable self) masked_imgs valid img_labels;
       EvPrint epoch d0 (100 * d3)%Q (100 * d4)%Q g0] ++ tail /\
    (* the discriminator losses are averaged with weight 0.5 each *)
    (exists a b, snd r1 !! 0%nat = Some a /\ snd r2 !! 0%nat = Some b /\
                 (d0 == (1 # 2) * a + (1 # 2) * b)%Q) /\
    snd r3 !! 0%nat = Some g0 /\
    (* the weights after the three training steps *)
    net self' = fst r3 /\
    (* what follows is the evaluation, and only at a sample interval *)
    (Z.of_nat epoch mod sample_interval = 0 ->
       exists sampled, tail = evaluation_events self epoch sampled) /\
    (Z.of_nat epoch mod sample_interval <> 0 -> tail = []).

End Training.

(** ** The two heads of the discriminator *)

(** The layers are the framework's; their outputs are taken as real
    numbers.  The convolutional stack that ends in [Flatten] is a
    parameter, and so are the kernels and biases of the two [Dense]
    layers. *)
Module layers.

Definition sum (l : list R) : R := fold_right Rplus 0%R l.

Definition dot (w x : list R) : R := sum (zip_with Rmult w x).

(** [activation="sigmoid"] *)
Definition sigmoid (z : list R) : list R :=
  map (fun v => (1 / (1 + exp (- v)))%R) z.

(** [activation="softmax"] *)
Definition softmax (z : list R) : list R :=
  map (fun v => (exp v / sum (map exp z))%R) z.

(** [Dense(units, activation=activation)(x)]: one pre-activation per
    unit, from the unit's column of the kernel and its bias. *)
Definition Dense (units : nat) (activation : list R -> list R)
    (kernel : nat -> list R) (bias : nat -> R) (x : list R) : list R :=
  activation (map (fun j => (dot (kernel j) x + bias j)%R) (seq 0 units)).

End layers.

Record DiscriminatorWeights : Type := {
  (* the Sequential model up to Flatten *)
  features : ndarray -> list R;
  validity_kernel : nat -> list R;
  validity_bias : nat -> R;
  label_kernel : nat -> list R;
  label_bias : nat -> R
}.

(** The model that [build_discriminator] returns, applied to one image:
    [Model(img, [validity, label])] with [img = Input(shape=img_shape)]. *)
Definition img_shape : list nat := [28; 28; 1]%nat.

Definition discriminator (w : DiscriminatorWeights) (img : ndarray)
    : pyerr + (list R * list R) :=
  if shape_eqb (shape img) img_shape then
    let f := features w img in
    let validity :=
      layers.Dense 1 layers.sigmoid (validity_kernel w) (validity_bias w) f in
    let label :=
      layers.Dense num_classes layers.softmax (label_kernel w) (label_bias w) f in
    inr (validity, label)
  else inl ValueError.

(** ** A small instance on which the definitions run *)

(** An image whose pixel (x, y) holds (28 x + y) mod 256. *)
Definition sample_image : ndarray :=
  {| shape := [28; 28]%nat;
     data := map (fun k => inject_Z (Z.of_nat (k mod 256))) (seq 0 784) |}.

(** The same image with a channel axis, and one of the wrong size. *)
Definition sample_image_3d : ndarray := np.expand_dims_last sample_image.

Definition small_image : ndarray :=
  {| shape := [2; 3]%nat; data := replicate 6 1%Q |}.

Definition small_image_3d : ndarray :=
  {| shape := [2; 3; 1]%nat; data := replicate 6 1%Q |}.

(** A generator whose [n]-th draw in [lo .. hi] is lo + n mod (hi - lo + 1). *)
Definition sample_random : RandomState :=
  {| outcome := fun lo hi n => lo + Z.of_nat n mod (hi - lo + 1); calls := 0 |}.

Definition sample_np_random : NpRandomState :=
  {| np_outcome := fun low high n j => low + Z.of_nat (n + j) mod (high - low);
     np_calls := 0 |}.

Definition sample_env : Env :=
  {| py_random := sample_random; np_random := sample_np_random; trace := [] |}.

(** A stand-in for the framework: the weights are the number of training
    steps made, the generator returns its input with a channel axis, and
    the discriminator gives probability 1 to the class that is the first
    pixel modulo 10. *)
Definition toy_label (x : ndarray) : nat :=
  Z.to_nat (Qnum (nth 0 (data x) 0%Q) mod 10).

Definition toy_keras : Keras :=
  {| Net := nat;
     generator_predict := fun _ x => {| shape := [28; 28; 1]%nat; data := data x |};
     discriminator_predict := fun _ x =>
       (1 # 2, map (fun j => if (j =? toy_label x)%nat then 1%Q else 0%Q) (seq 0 10));
     discriminator_train_on_batch := fun n _ _ _ => (S n, replicate 5 (1 # 4));
     combined_train_on_batch := fun _ n _ _ _ => (S n, replicate 3 (1 # 8));
     generator_output_shape := fun _ _ => eq_refl;
     discriminator_classes := fun _ _ => eq_refl;
     discriminator_metrics := fun _ _ _ _ => eq_refl;
     combined_metrics := fun _ _ _ _ _ => eq_refl |}.

(** A constant image of 28x28 pixels. *)
Definition flat_image (v : Z) : ndarray :=
  {| shape := [28; 28]%nat; data := replicate 784 (inject_Z v) |}.

(** An object with two training images, a hundred test images, and
    four masked test images with their labels. *)
Definition sample_acgan : @ACGAN toy_keras :=
  {| net := 0%nat : @Net toy_keras;
     discriminator_trainable := false;
     X_train := [sample_image; flat_image 255];
     y_train := [0; 5];
     X_test := replicate 100 sample_image;
     y_test := [3; 4; 3; 7];
     X_test_masked := [flat_image 3; flat_image 5; flat_image 4; flat_image 7];
     accuracy_scores := [];
     recall_scores := [] |}.

(** The weights of a discriminator whose features are the first two
    pixels and whose kernels are constant. *)
Definition sample_weights : DiscriminatorWeights :=
  {| features := fun img => [Q2R (nth 0 (data img) 0%Q); Q2R (nth 1 (data img) 0%Q)];
     validity_kernel := fun _ => [1%R; 1%R];
     validity_bias := fun _ => 0%R;
     label_kernel := fun j => [INR j; 0%R];
     label_bias := fun _ => 0%R |}.

(** ** Display scaling *)

(** [0.5 * gen_imgs + 0.5] of [sample_images], on one image. *)
Definition rescale (a : ndarray) : ndarray :=
  {| shape := shape a;
     data := map (fun v => (1 # 2) * v + (1 # 2))%Q (data a) |}.

(** ** Counting calls in the trace *)





(** ** The program *)

Section Program.

Context {K : Keras}.

(** [acgan = ACGAN(); acgan.train(epochs=14000, batch_size=32,
    sample_interval=200)], given the models as built and the data set
    as loaded. *)
Definition main (net0 : Net)
    (mnist : (list ndarray * list Z) * (list ndarray * list Z)) : M Env ACGAN :=
  let* acgan := ACGAN_init net0 mnist in
  train acgan 14000 32 200.

(** The data set has the form [train] and the evaluation rely on. *)
Definition mnist_ok (mnist : (list ndarray * list Z) * (list ndarray * list Z))
    : Prop :=
  fst (fst mnist) <> [] /\
  Forall image28 (fst (fst mnist)) /\
  length (snd (fst mnist)) = length (fst (fst mnist)) /\
  Forall image28 (fst (snd mnist)) /\
  (100 <= length (fst (snd mnist)))%nat /\
  length (snd (snd mnist)) = length (fst (snd mnist)).

End Program.

(** A small data set in the form of [mnist.load_data()]. *)
Definition sample_mnist : (list ndarray * list Z) * (list ndarray * list Z) :=
  (([sample_image; flat_image 255], [0; 5]),
   (replicate 100 sample_image, replicate 100 3)).

(** ** Counting hidden pixels *)

(** The cells of a rectangle of rows a .. a + wa and columns b .. b + wb. *)
Definition band (a wa b wb : Z) (c : nat * nat) : bool :=
  ((a <=? Z.of_nat (fst c)) && (Z.of_nat (fst c) <=? a + wa))
  && ((b <=? Z.of_nat (snd c)) && (Z.of_nat (snd c) <=? b + wb)).

(** The cells within the visible radius of one of the positions reached
    after the steps 1 .. k. *)
Definition seen_by (s : RandomState) (k : nat) (c : nat * nat) : bool :=
  existsb (fun j => window (position s j) (fst c) (snd c)) (seq 1 k).

Definition is_zero (o : option Q) : bool :=
  match o with
  | Some q => Qeq_bool q 0
  | None => false
  end.

(** The cells of the 28x28 grid where an array holds zero. *)
Definition zero_cells (a : ndarray) : list (nat * nat) :=
  List.filter (fun c => is_zero (np.getitem2 a (fst c) (snd c))) grid_cells.

(** ** The shapes through the two Sequential models *)

Inductive activation : Type := act_relu | act_tanh.

(** The layers the two models are made of.  Every convolution of the
    source has [padding="same"]. *)
Inductive layer : Type :=
| Conv2D (filters kernel_size strides : nat)
| Activation (a : activation)
| BatchNormalization
| LeakyReLU
| Dropout
| ZeroPadding2D (top bottom left right : nat)
| Flatten.

Definition ceil_div (n s : nat) : nat := ((n + s - 1) / s)%nat.

(** The shape of the output of a layer on one sample: a convolution
    with same padding gives ceil(n / strides) rows and columns and one
    channel per filter; the layers that act on each value keep the
    shape. *)
Definition output_shape (l : layer) (sh : list nat) : option (list nat) :=
  match l, sh with
  | Conv2D filters _ strides, [h; w; _] =>
      if (strides =? 0)%nat then None
      else Some [ceil_div h strides; ceil_div w strides; filters]
  | Conv2D _ _ _, _ => None
  | ZeroPadding2D t b l r, [h; w; c] => Some [(h + t + b)%nat; (w + l + r)%nat; c]
  | ZeroPadding2D _ _ _ _, _ => None
  | Flatten, _ => Some [np.size_of sh]
  | _, _ => Some sh
  end.

(** [Sequential()] followed by [model.add] for each layer. *)
Fixpoint sequential_shape (ls : list layer) (sh : list nat) : option (list nat) :=
  match ls with
  | [] => Some sh
  | l :: rest =>
      match output_shape l sh with
      | Some sh' => sequential_shape rest sh'
      | None => None
      end
  end.

(** The layers of [build_generator], for [self.channels = channels]. *)
Definition generator_layers (channels : nat) : list layer :=
  [Conv2D 64 3 1; Activation act_relu; BatchNormalization;
   Conv2D 128 3 1; Activation act_relu; BatchNormalization;
   Conv2D 64 3 1; Activation act_relu; BatchNormalization;
   Conv2D channels 3 1; Activation act_tanh].

(** The layers of [build_discriminator] up to [Flatten]. *)
Definition discriminator_layers : list layer :=
  [Conv2D 16 3 2; LeakyReLU; Dropout;
   Conv2D 32 3 2; ZeroPadding2D 0 1 0 1; LeakyReLU; Dropout; BatchNormalization;
   Conv2D 64 3 2; LeakyReLU; Dropout; BatchNormalization;
   Conv2D 128 3 1; LeakyReLU; Dropout;
   Flatten].

(* ================================================================== *)
(** * Properties *)

(** ** The monad *)

Lemma bind_inr {St A B : Type} (m : M St A) (k : A -> M St B) s a s' :
  m s = inr (a, s') -> bind m k s = k a s'.
Proof. intros H. unfold bind. now rewrite H. Qed.

Lemma in_range (lo hi z : Z) : In z (range lo hi) <-> lo <= z < hi.
Proof.
  unfold range. rewrite in_map_iff. split.
  - intros (k & <- & Hk). apply in_seq in Hk. lia.
  - intros H. exists (Z.to_nat (z - lo)). split; [lia|]. apply in_seq. lia.
Qed.

(** ** Drawing the steps *)

Lemma comprehension_randint (lo hi : Z) (n : nat) : forall (from : nat) (s : RandomState),
  list_comprehension (fun _ : nat => random.randint lo hi) (seq from n) s
  = inr (map (fun k => outcome s lo hi (calls s + k)%nat) (seq 0 n),
         {| outcome := outcome s; calls := (calls s + n)%nat |}).
Proof.
  induction n as [|n IH]; intros from s.
  - simpl. unfold ret. destruct s as [o c]; simpl. do 3 f_equal. lia.
  - cbn [seq list_comprehension]. unfold bind at 1. cbn [random.randint].
    unfold bind at 1. rewrite IH. cbn [outcome calls]. unfold ret.
    cbn [map]. rewrite <- seq_shift, map_map. do 3 f_equal.
    + rewrite Nat.add_0_r. reflexivity.
    + apply map_ext. intros k. f_equal. lia.
    + lia.
Qed.

(** ** Marking cells of the 28x28 mask *)

Lemma mark_cell_grid m x y : is_grid m -> is_grid (mark_cell m x y).
Proof.
  intros [Hs Hl]. unfold mark_cell.
  destruct (_ && _); [|now split].
  split; cbn; [assumption|]. now rewrite length_insert.
Qed.

Lemma mark_cell_lookup m x y (x' y' : nat) :
  is_grid m -> (x' < 28)%nat -> (y' < 28)%nat ->
  np.getitem2 (mark_cell m x y) x' y'
  = if bool_decide (x = Z.of_nat x' /\ y = Z.of_nat y') then Some 1%Q
    else np.getitem2 m x' y'.
Proof.
  intros [Hs Hl] Hx Hy. unfold mark_cell.
  destruct (_ && _) eqn:Hin.
  - unfold np.getitem2, np.setitem2, np.ncols. cbn [shape data]. rewrite Hs.
    apply andb_prop in Hin as [Hin1 Hin2].
    apply andb_prop in Hin1 as [H1 H2]. apply andb_prop in Hin2 as [H3 H4].
    case_bool_decide as Heq.
    + destruct Heq as [-> ->]. rewrite !Nat2Z.id.
      apply list_lookup_insert_eq. lia.
    + apply list_lookup_insert_ne. lia.
  - case_bool_decide as Heq; [|reflexivity].
    destruct Heq as [-> ->].
    assert (H : (0 <=? Z.of_nat x') && (Z.of_nat x' <? 28)
                && ((0 <=? Z.of_nat y') && (Z.of_nat y' <? 28)) = true).
    { repeat (apply andb_true_intro; split); lia. }
    congruence.
Qed.

Lemma mark_cells_grid cells : forall m, is_grid m -> is_grid (mark_cells m cells).
Proof.
  induction cells as [|c cells IH]; intros m Hm; [exact Hm|].
  apply IH. now apply mark_cell_grid.
Qed.

Lemma mark_cells_lookup cells (x' y' : nat) : forall m,
  is_grid m -> (x' < 28)%nat -> (y' < 28)%nat ->
  np.getitem2 (mark_cells m cells) x' y'
  = if bool_decide ((Z.of_nat x', Z.of_nat y') ∈ cells) then Some 1%Q
    else np.getitem2 m x' y'.
Proof.
  induction cells as [|c cells IH]; intros m Hm Hx Hy.
  - cbn. case_bool_decide as H; [inversion H|reflexivity].
  - cbn [mark_cells fold_left]. fold (mark_cells (mark_cell m (fst c) (snd c)) cells).
    rewrite IH by (try apply mark_cell_grid; assumption).
    rewrite mark_cell_lookup by assumption.
    destruct c as [cx cy]. cbn [fst snd].
    repeat case_bool_decide; try reflexivity.
    + exfalso. apply H0, elem_of_cons. now right.
    + exfalso. apply H1, elem_of_cons. left. destruct H0 as [-> ->]. reflexivity.
    + exfalso. apply elem_of_cons in H1 as [H1|H1]; [|contradiction].
      apply H0. inversion H1. split; reflexivity.
Qed.

Lemma update_mask_cells m p :
  update_mask m p
  = mark_cells m (list_prod (range (fst p - VISIBLE_RADIUS) (fst p + VISIBLE_RADIUS + 1))
                            (range (snd p - VISIBLE_RADIUS) (snd p + VISIBLE_RADIUS + 1))).
Proof.
  unfold update_mask, mark_cells.
  generalize (range (snd p - VISIBLE_RADIUS) (snd p + VISIBLE_RADIUS + 1)) as ys.
  generalize (range (fst p - VISIBLE_RADIUS) (fst p + VISIBLE_RADIUS + 1)) as xs.
  intros xs ys. revert m.
  induction xs as [|x xs IH]; intros m; [reflexivity|].
  cbn [fold_left list_prod]. rewrite fold_left_app, IH. f_equal.
  clear IH. generalize m. induction ys as [|y ys IHy]; intros m0; [reflexivity|].
  cbn [fold_left map fst snd]. apply IHy.
Qed.

Lemma window_spec p (x y : nat) :
  window p x y = true
  <-> In (Z.of_nat x, Z.of_nat y)
         (list_prod (range (fst p - VISIBLE_RADIUS) (fst p + VISIBLE_RADIUS + 1))
                    (range (snd p - VISIBLE_RADIUS) (snd p + VISIBLE_RADIUS + 1))).
Proof.
  rewrite in_prod_iff, !in_range. unfold window, chebyshev, VISIBLE_RADIUS.
  cbn [fst snd]. rewrite Z.leb_le. lia.
Qed.

Lemma update_mask_grid m p : is_grid m -> is_grid (update_mask m p).
Proof. rewrite update_mask_cells. apply mark_cells_grid. Qed.

Lemma update_mask_lookup m p (x y : nat) :
  is_grid m -> (x < 28)%nat -> (y < 28)%nat ->
  np.getitem2 (update_mask m p) x y
  = if window p x y then Some 1%Q else np.getitem2 m x y.
Proof.
  intros Hm Hx Hy. rewrite update_mask_cells, mark_cells_lookup by assumption.
  pose proof (window_spec p x y) as Hw.
  case_bool_decide as Hin; destruct (window p x y); try reflexivity.
  - apply list_elem_of_In, Hw in Hin. discriminate.
  - exfalso. apply Hin, list_elem_of_In, Hw. reflexivity.
Qed.

(** ** The walk *)

Lemma move_direction p step :
  move p step = (fst p + fst (direction step), snd p + snd (direction step)).
Proof.
  destruct p as [r c]. unfold move. cbn [fst snd].
  destruct step as [|q|q]; cbn.
  - f_equal; lia.
  - destruct q as [[q|q|]|[q|q|]|]; cbn; f_equal; lia.
  - f_equal; lia.
Qed.

Lemma trajectory_position s n : forall k0,
  trajectory (position s k0) (map (step_drawn s) (seq k0 n))
  = map (position s) (seq (S k0) n).
Proof.
  induction n as [|n IH]; intros k0; [reflexivity|].
  cbn [seq map trajectory].
  assert (Hm : move (position s k0) (step_drawn s k0) = position s (S k0)).
  { rewrite move_direction. reflexivity. }
  rewrite Hm, IH. reflexivity.
Qed.

Lemma for_each_walk (rest : list Z) : forall (pre : list Z) st (s : RandomState),
  for_each (walk_body (pre ++ rest)) (seq (length pre) (length rest)) st s
  = inr (fold_left walk_step rest st, s).
Proof.
  induction rest as [|a rest IH]; intros pre st s; [reflexivity|].
  cbn [length seq for_each fold_left].
  unfold bind at 1. unfold walk_body at 1. unfold bind at 1, py_getitem.
  rewrite list_lookup_middle by reflexivity. unfold ret at 1 2.
  replace (pre ++ a :: rest) with ((pre ++ [a]) ++ rest)
    by (rewrite <- app_assoc; reflexivity).
  replace (S (length pre)) with (length (pre ++ [a]))
    by (rewrite length_app; cbn; lia).
  apply IH.
Qed.

Lemma walk_fold_grid steps : forall st,
  is_grid (snd st) -> is_grid (snd (fold_left walk_step steps st)).
Proof.
  induction steps as [|a steps IH]; intros st Hg; [exact Hg|].
  cbn [fold_left]. apply IH. cbn. now apply update_mask_grid.
Qed.

Lemma walk_fold_lookup steps (x y : nat) : forall st,
  is_grid (snd st) -> (x < 28)%nat -> (y < 28)%nat ->
  np.getitem2 (snd (fold_left walk_step steps st)) x y
  = if existsb (fun q => window q x y) (trajectory (fst st) steps)
    then Some 1%Q else np.getitem2 (snd st) x y.
Proof.
  induction steps as [|a steps IH]; intros st Hg Hx Hy; [reflexivity|].
  cbn [fold_left trajectory existsb].
  rewrite IH by (try apply update_mask_grid; assumption).
  cbn [walk_step fst snd]. rewrite update_mask_lookup by assumption.
  destruct (window (move (fst st) a) x y), (existsb _ _); reflexivity.
Qed.

Lemma zeros_grid : is_grid (np.zeros [28; 28]%nat).
Proof. split; [reflexivity|]. cbn [np.zeros data]. now rewrite length_replicate. Qed.

Lemma zeros_lookup (x y : nat) :
  (x < 28)%nat -> (y < 28)%nat -> np.getitem2 (np.zeros [28; 28]%nat) x y = Some 0%Q.
Proof.
  intros Hx Hy. unfold np.getitem2, np.zeros, np.ncols. cbn [shape data].
  apply lookup_replicate_2.
  change (np.size_of [28; 28]%nat) with 784%nat. lia.
Qed.

Lemma build_mask_run (s : RandomState) :
  build_mask s = inr (mask_array s, advance s 42).
Proof.
  unfold build_mask.
  unfold bind at 1. cbn [random.randint].
  unfold bind at 1. cbn [random.randint outcome calls].
  unfold bind at 1. rewrite comprehension_randint. cbn [outcome calls].
  assert (Hsteps : map (fun k : nat => outcome s 0 3 (S (S (calls s)) + k)%nat)
                       (seq 0 RANDOM_WALK_LENGTH) = steps_drawn s).
  { apply map_ext. intros k. unfold step_drawn. f_equal. lia. }
  rewrite Hsteps.
  unfold bind at 1.
  pose proof (for_each_walk (steps_drawn s) []) as Hw.
  assert (Hlen : length (steps_drawn s) = RANDOM_WALK_LENGTH).
  { unfold steps_drawn. now rewrite length_map, length_seq. }
  rewrite Hlen in Hw. cbn [length app] in Hw. rewrite Hw.
  unfold ret, mask_array, advance. do 3 f_equal.
  unfold RANDOM_WALK_LENGTH. lia.
Qed.

Lemma mask_array_grid s : is_grid (mask_array s).
Proof. apply walk_fold_grid, zeros_grid. Qed.

Lemma mask_array_lookup s (x y : nat) :
  (x < 28)%nat -> (y < 28)%nat ->
  np.getitem2 (mask_array s) x y = Some (if visibleb s x y then 1%Q else 0%Q).
Proof.
  intros Hx Hy. unfold mask_array.
  rewrite walk_fold_lookup by (try apply zeros_grid; assumption).
  cbn [fst snd]. unfold steps_drawn.
  change (start_position s) with (position s 0).
  rewrite trajectory_position, zeros_lookup by assumption.
  unfold visibleb, window.
  assert (Hex : forall (f : Z * Z -> bool) (l : list nat),
             existsb f (map (position s) l) = existsb (fun k => f (position s k)) l).
  { intros f l. induction l as [|k l IHl]; [reflexivity|]. cbn. now rewrite IHl. }
  rewrite Hex. now destruct (existsb _ _).
Qed.

Lemma visibleb_spec s (x y : nat) : visibleb s x y = true <-> visible s x y.
Proof.
  unfold visibleb, visible. rewrite existsb_exists. split.
  - intros (k & Hk & Hc). apply in_seq in Hk. apply Z.leb_le in Hc.
    exists k. split; [lia|exact Hc].
  - intros (k & Hk & Hc). exists k. split; [apply in_seq; lia|now apply Z.leb_le].
Qed.

(** ** Running [mask] *)

Lemma mask_run_2d (image : ndarray) (walk_length visible_radius : Z) (s : RandomState) :
  shape image = [28; 28]%nat ->
  mask image walk_length visible_radius s
  = inr (np.multiply image (mask_array s), advance s 42).
Proof.
  intros Hs. unfold mask. rewrite Hs. cbn [length Nat.eqb].
  unfold bind at 1. unfold ret at 1. rewrite Hs.
  unfold bind at 1. unfold shape_eqb, py_assert.
  rewrite bool_decide_eq_true_2 by reflexivity. unfold ret at 1.
  unfold bind at 1. rewrite build_mask_run. reflexivity.
Qed.

Lemma mask_assertion (image : ndarray) (walk_length visible_radius : Z)
    (s : RandomState) :
  length (shape image) <> 3%nat -> shape image <> [28; 28]%nat ->
  mask image walk_length visible_radius s = inl AssertionError.
Proof.
  intros Hl Hne. unfold mask.
  apply Nat.eqb_neq in Hl. rewrite Hl.
  unfold bind at 1. unfold ret at 1.
  unfold bind at 1. unfold shape_eqb, py_assert.
  rewrite bool_decide_eq_false_2; [reflexivity|exact Hne].
Qed.

Lemma mask_assertion_2d (image : ndarray) (walk_length visible_radius : Z)
    (s : RandomState) (h w : nat) :
  shape image = [h; w] -> (h, w) <> (28, 28)%nat ->
  mask image walk_length visible_radius s = inl AssertionError.
Proof.
  intros Hs Hne. apply mask_assertion; rewrite Hs.
  - cbn. lia.
  - intros Heq. apply Hne. congruence.
Qed.

Lemma mask_no_channel (image : ndarray) (walk_length visible_radius : Z)
    (s : RandomState) (h w : nat) :
  shape image = [h; w; 0%nat] ->
  mask image walk_length visible_radius s = inl IndexError.
Proof.
  intros Hs. unfold mask. rewrite Hs. cbn [length Nat.eqb].
  unfold bind at 1. unfold np.channel0. rewrite Hs. reflexivity.
Qed.

Lemma mask_channel0 (image : ndarray) (walk_length visible_radius : Z)
    (s : RandomState) (h w c : nat) :
  shape image = [h; w; c] -> c <> 0%nat ->
  exists gray,
    np.channel0 image s = inr (gray, s) /\ shape gray = [h; w] /\
    well_formed gray /\
    (forall x y, (x < h)%nat -> (y < w)%nat -> well_formed image ->
                 np.getitem2 gray x y = np.getitem3 image x y 0) /\
    mask image walk_length visible_radius s = mask gray walk_length visible_radius s.
Proof.
  intros Hs Hc.
  exists {| shape := [h; w];
            data := map (fun k => nth (k * c) (data image) 0%Q) (seq 0 (h * w)) |}.
  assert (Hc0 : (c =? 0)%nat = false) by now apply Nat.eqb_neq.
  repeat split.
  - unfold np.channel0. rewrite Hs, Hc0. reflexivity.
  - unfold well_formed. cbn. rewrite length_map, length_seq. lia.
  - intros x y Hx Hy Hwf. unfold np.getitem2, np.getitem3, np.ncols.
    cbn [shape data]. rewrite Hs.
    unfold well_formed in Hwf. rewrite Hs in Hwf. cbn in Hwf.
    assert (Hk : (x * w + y < h * w)%nat) by nia.
    rewrite list_lookup_fmap, lookup_seq_lt by exact Hk. cbn.
    rewrite Nat.add_0_r.
    destruct (lookup_lt_is_Some_2 (data image) ((x * w + y) * c)%nat) as [v Hv]; [nia|].
    rewrite Hv. f_equal. apply nth_lookup_Some with (d := 0%Q) in Hv. exact Hv.
  - unfold mask. rewrite Hs. cbn [length Nat.eqb].
    unfold bind at 1. unfold np.channel0. rewrite Hs, Hc0. unfold ret at 1.
    unfold bind at 3. cbn [shape length Nat.eqb]. unfold ret at 2. reflexivity.
Qed.

(** ** Applying the mask *)

Lemma Qmult_one (v : Q) : (v * 1)%Q = v.
Proof.
  destruct v as [n d]. unfold Qmult. cbn [Qnum Qden].
  now rewrite Z.mul_1_r, Pos.mul_1_r.
Qed.

Lemma Qmult_zero (v : Q) : (v * 0 == 0)%Q.
Proof. apply Qmult_0_r. Qed.

Lemma image_lookup (image : ndarray) (x y : nat) :
  shape image = [28; 28]%nat -> well_formed image ->
  (x < 28)%nat -> (y < 28)%nat -> is_Some (np.getitem2 image x y).
Proof.
  intros Hs Hwf Hx Hy. unfold np.getitem2, np.ncols. rewrite Hs.
  apply lookup_lt_is_Some_2. unfold well_formed in Hwf. rewrite Hwf, Hs.
  change (np.size_of [28; 28]%nat) with 784%nat. lia.
Qed.

Lemma masked_pixel (image : ndarray) (s : RandomState) (x y : nat) (v : Q) :
  shape image = [28; 28]%nat -> (x < 28)%nat -> (y < 28)%nat ->
  np.getitem2 image x y = Some v ->
  np.getitem2 (np.multiply image (mask_array s)) x y
  = Some (v * (if visibleb s x y then 1 else 0))%Q.
Proof.
  intros Hs Hx Hy Hv.
  pose proof (mask_array_lookup s x y Hx Hy) as Hm.
  destruct (mask_array_grid s) as [Hms _].
  unfold np.getitem2, np.multiply, np.ncols in *. cbn [shape data].
  rewrite Hs in *. rewrite Hms in Hm.
  rewrite lookup_zip_with, Hv, Hm. reflexivity.
Qed.

(** C1. For a 28x28 image and any outcomes of the random draws, [mask]
    returns a 28x28 array in which every pixel is the input pixel or
    zero.  Each output pixel is the input pixel times its cell of the
    mask array, and that factor is 1 exactly when the cell lies inside
    the visibility region (the cells of the grid within the visible
    radius of a position reached by the walk) and 0 exactly when it
    lies outside: inside the region the pixel keeps its value, outside
    it is zero.  For an input pixel that is not itself zero the values
    alone tell the two cases apart. *)
Theorem mask_keeps_region_zeroes_rest
    (image : ndarray) (walk_length visible_radius : Z) (s : RandomState) :
  shape image = [28; 28]%nat -> well_formed image ->
  exists out s',
    mask image walk_length visible_radius s = inr (out, s') /\
    shape out = [28; 28]%nat /\
    forall x y : nat, (x < 28)%nat -> (y < 28)%nat ->
      exists v v' m,
        np.getitem2 image x y = Some v /\
        np.getitem2 out x y = Some v' /\
        np.getitem2 (mask_array s) x y = Some m /\
        v' = (v * m)%Q /\
        (m = 1%Q <-> visible s x y) /\
        (m = 0%Q <-> ~ visible s x y) /\
        (v' = v \/ (v' == 0)%Q) /\
        (visible s x y -> v' = v) /\
        (~ visible s x y -> (v' == 0)%Q) /\
        (~ (v == 0)%Q ->
         ((v' == v)%Q <-> visible s x y) /\ ((v' == 0)%Q <-> ~ visible s x y)).
Proof.
  intros Hs Hwf.
  exists (np.multiply image (mask_array s)), (advance s 42).
  split; [now apply mask_run_2d|]. split; [exact Hs|].
  intros x y Hx Hy.
  destruct (image_lookup image x y Hs Hwf Hx Hy) as [v Hv].
  exists v, (v * (if visibleb s x y then 1 else 0))%Q,
         (if visibleb s x y then 1%Q else 0%Q).
  split; [exact Hv|]. split; [now apply masked_pixel|].
  split; [now apply mask_array_lookup|]. split; [reflexivity|].
  pose proof (visibleb_spec s x y) as Hvis.
  destruct (visibleb s x y).
  - assert (Hin : visible s x y) by now apply Hvis.
    rewrite Qmult_one.
    split; [tauto|]. split; [split; [discriminate|contradiction]|].
    split; [now left|]. split; [reflexivity|]. split; [contradiction|].
    intros Hnz. split; split; try tauto.
    intros _. reflexivity.
  - assert (Hout : ~ visible s x y).
    { intros H. apply Hvis in H. discriminate. }
    pose proof (Qmult_zero v) as Hz.
    split; [split; [discriminate|contradiction]|]. split; [tauto|].
    split; [now right|]. split; [contradiction|]. split; [intros _; exact Hz|].
    intros Hnz. split; split; try tauto.
    intros Heq. exfalso. apply Hnz. rewrite <- Heq. exact Hz.
Qed.

(** C8. [mask] never reads its [walk_length] and [visible_radius]
    parameters: whatever values are passed, the call does what
    [mask(image)] does from the same state of the random generator. *)
Theorem mask_ignores_parameters
    (image : ndarray) (walk_length visible_radius : Z) (s : RandomState) :
  mask image walk_length visible_radius s = mask_default image s.
Proof. reflexivity. Qed.

(** ** The shapes [mask] accepts and returns *)

Lemma mask_result_shape (image : ndarray) (walk_length visible_radius : Z)
    (s s' : RandomState) (out : ndarray) :
  mask image walk_length visible_radius s = inr (out, s') ->
  shape out = [28; 28]%nat.
Proof.
  intros Hrun.
  destruct (decide (shape image = [28; 28]%nat)) as [Hs|Hs].
  { rewrite mask_run_2d in Hrun by exact Hs. inversion Hrun. exact Hs. }
  destruct (decide (length (shape image) = 3%nat)) as [Hl|Hl].
  2:{ rewrite mask_assertion in Hrun by assumption. discriminate. }
  destruct (shape image) as [|h [|w [|c [|]]]] eqn:Hsh; try discriminate.
  destruct (decide (c = 0%nat)) as [->|Hc].
  { rewrite (mask_no_channel _ _ _ _ h w) in Hrun by exact Hsh. discriminate. }
  destruct (mask_channel0 image walk_length visible_radius s h w c Hsh Hc)
    as (gray & _ & Hg & _ & _ & Heq).
  rewrite Heq in Hrun.
  destruct (decide ((h, w) = (28, 28)%nat)) as [Hhw|Hhw].
  - inversion Hhw; subst. rewrite mask_run_2d in Hrun by exact Hg.
    inversion Hrun. exact Hg.
  - rewrite (mask_assertion_2d _ _ _ _ h w) in Hrun by assumption. discriminate.
Qed.

Lemma channel0_expand_dims (image : ndarray) (s : RandomState) (h w : nat) :
  shape image = [h; w] -> well_formed image ->
  np.channel0 (np.expand_dims_last image) s = inr (image, s).
Proof.
  intros Hs Hwf. unfold np.channel0, np.expand_dims_last. cbn [shape data].
  rewrite Hs. cbn [app Nat.eqb]. unfold ret. do 2 f_equal.
  destruct image as [sh d]. cbn [shape data] in *. subst sh. f_equal.
  unfold well_formed in Hwf. cbn in Hwf.
  replace (h * w)%nat with (length d) by lia.
  apply list_eq. intros i. rewrite list_lookup_fmap.
  destruct (decide (i < length d)%nat) as [Hi|Hi].
  - rewrite lookup_seq_lt by exact Hi. cbn. rewrite Nat.mul_1_r.
    destruct (lookup_lt_is_Some_2 d i Hi) as [v Hv]. rewrite Hv. f_equal.
    now apply nth_lookup_Some with (d := 0%Q) in Hv.
  - rewrite lookup_seq_ge by lia. cbn. symmetry. apply lookup_ge_None. lia.
Qed.

Lemma mask_expand_dims (image : ndarray) (walk_length visible_radius : Z)
    (s : RandomState) :
  shape image = [28; 28]%nat -> well_formed image ->
  mask (np.expand_dims_last image) walk_length visible_radius s
  = mask image walk_length visible_radius s.
Proof.
  intros Hs Hwf. unfold mask at 1.
  assert (Hl : (length (shape (np.expand_dims_last image)) =? 3)%nat = true).
  { cbn [np.expand_dims_last shape]. rewrite Hs. reflexivity. }
  rewrite Hl. unfold bind at 1.
  rewrite (channel0_expand_dims image s 28 28 Hs Hwf).
  rewrite mask_run_2d by exact Hs.
  unfold bind at 1. unfold shape_eqb, py_assert.
  rewrite bool_decide_eq_true_2 by exact Hs. unfold ret at 1.
  unfold bind at 1. rewrite build_mask_run. reflexivity.
Qed.

(** C5. [mask] accepts only 28x28 grayscale images.  A two-dimensional
    array whose shape is not (28, 28) raises AssertionError; for a
    two-dimensional array of shape (28, 28) the assertion passes and the
    call returns; of a three-dimensional array only channel 0 of the
    last axis is taken, and the call then behaves as on that
    two-dimensional array, so the assertion requires the remaining
    shape to be (28, 28). *)
Theorem mask_accepts_only_28x28
    (image : ndarray) (walk_length visible_radius : Z) (s : RandomState) :
  (forall h w : nat, shape image = [h; w] -> (h, w) <> (28, 28)%nat ->
     mask image walk_length visible_radius s = inl AssertionError) /\
  (shape image = [28; 28]%nat ->
     exists out s', mask image walk_length visible_radius s = inr (out, s')) /\
  (forall h w c : nat, shape image = [h; w; c] -> c <> 0%nat ->
     exists gray,
       np.channel0 image s = inr (gray, s) /\
       shape gray = [h; w] /\
       (well_formed image -> forall x y, (x < h)%nat -> (y < w)%nat ->
          np.getitem2 gray x y = np.getitem3 image x y 0) /\
       mask image walk_length visible_radius s
       = mask gray walk_length visible_radius s /\
       ((h, w) <> (28, 28)%nat ->
          mask image walk_length visible_radius s = inl AssertionError) /\
       ((h, w) = (28, 28)%nat ->
          exists out s', mask image walk_length visible_radius s = inr (out, s'))).
Proof.
  split; [|split].
  - intros h w Hs Hne. now apply (mask_assertion_2d _ _ _ _ h w).
  - intros Hs. eexists _, _. now apply mask_run_2d.
  - intros h w c Hs Hc.
    destruct (mask_channel0 image walk_length visible_radius s h w c Hs Hc)
      as (gray & Hch & Hg & _ & Hpx & Heq).
    exists gray. split; [exact Hch|]. split; [exact Hg|].
    split; [intros Hwf x y Hx Hy; now apply Hpx|]. split; [exact Heq|]. split.
    + intros Hne. rewrite Heq. now apply (mask_assertion_2d _ _ _ _ h w).
    + intros Hhw. inversion Hhw; subst. rewrite Heq.
      eexists _, _. now apply mask_run_2d.
Qed.

(** C10. Whatever [mask] returns is a two-dimensional array of shape
    (28, 28).  For an input of shape (28, 28, c) the channel axis is
    dropped: the call returns an array of shape (28, 28) computed from
    channel 0.  In particular an image of shape (28, 28, 1), as [train]
    builds them with [np.expand_dims], gives back what the same image of
    shape (28, 28) gives, an array of shape (28, 28). *)
Theorem mask_returns_28x28
    (image : ndarray) (walk_length visible_radius : Z) (s : RandomState) :
  (forall out s', mask image walk_length visible_radius s = inr (out, s') ->
     shape out = [28; 28]%nat /\ length (shape out) = 2%nat) /\
  (forall c : nat, shape image = [28; 28; c]%nat -> c <> 0%nat ->
     well_formed image ->
     exists out s',
       mask image walk_length visible_radius s = inr (out, s') /\
       shape out = [28; 28]%nat /\
       forall x y : nat, (x < 28)%nat -> (y < 28)%nat ->
         exists v, np.getitem3 image x y 0 = Some v /\
                   np.getitem2 out x y
                   = Some (v * (if visibleb s x y then 1 else 0))%Q) /\
  (shape image = [28; 28]%nat -> well_formed image ->
     mask (np.expand_dims_last image) walk_length visible_radius s
     = mask image walk_length visible_radius s /\
     shape (np.expand_dims_last image) = [28; 28; 1]%nat /\
     exists out s',
       mask (np.expand_dims_last image) walk_length visible_radius s = inr (out, s') /\
       shape out = [28; 28]%nat).
Proof.
  split; [|split].
  - intros out s' Hrun. apply mask_result_shape in Hrun. rewrite Hrun. now split.
  - intros c Hs Hc Hwf.
    destruct (mask_channel0 image walk_length visible_radius s 28 28 c Hs Hc)
      as (gray & _ & Hg & Hgwf & Hpx & Heq).
    exists (np.multiply gray (mask_array s)), (advance s 42).
    split; [rewrite Heq; now apply mask_run_2d|]. split; [exact Hg|].
    intros x y Hx Hy.
    destruct (image_lookup gray x y Hg Hgwf Hx Hy) as [v Hv].
    exists v. split; [rewrite <- Hpx by assumption; exact Hv|].
    now apply masked_pixel.
  - intros Hs Hwf. split; [now apply mask_expand_dims|].
    split; [cbn; now rewrite Hs|].
    rewrite mask_expand_dims by assumption.
    eexists _, _. split; [now apply mask_run_2d|exact Hs].
Qed.

(** ** The region is a random walk *)

Lemma start_in_range (s : RandomState) :
  randint_contract s ->
  7 <= fst (position s 0) <= 20 /\ 7 <= snd (position s 0) <= 20.
Proof.
  intros Hc. cbn [position start_position fst snd]. split; apply Hc; lia.
Qed.

Lemma step_in_range (s : RandomState) (k : nat) :
  randint_contract s -> 0 <= step_drawn s k <= 3.
Proof. intros Hc. apply Hc. lia. Qed.

Lemma direction_unit (d : Z) :
  0 <= d <= 3 -> chebyshev (direction d) (0, 0) = 1.
Proof.
  intros H. assert (Hd : d = 0 \/ d = 1 \/ d = 2 \/ d = 3) by lia.
  destruct Hd as [-> | [-> | [-> | ->]]]; reflexivity.
Qed.

(** C2. The visibility region is produced by a random walk.  The start
    position has both coordinates in 7..20; the call draws them and
    then exactly RANDOM_WALK_LENGTH = 40 steps, each in 0..3; step 0
    decrements the row, 1 increments the column, 2 increments the row,
    3 decrements the column, so that every step is a unit step; and a
    cell of the 28x28 grid is marked 1 in the mask array exactly when it
    is within Chebyshev distance VISIBLE_RADIUS = 5 of the position
    reached after one of the steps 1..40 (the start position itself
    marks nothing), every other cell staying 0. *)
Theorem mask_region_is_random_walk (s : RandomState) :
  randint_contract s ->
  (7 <= fst (position s 0) <= 20 /\ 7 <= snd (position s 0) <= 20) /\
  build_mask s = inr (mask_array s, advance s 42) /\
  length (steps_drawn s) = 40%nat /\ RANDOM_WALK_LENGTH = 40%nat /\
  VISIBLE_RADIUS = 5 /\
  (forall k : nat, (k < 40)%nat ->
     let p := position s k in
     let d := step_drawn s k in
     steps_drawn s !! k = Some d /\
     0 <= d <= 3 /\
     (d = 0 -> position s (S k) = (fst p - 1, snd p)) /\
     (d = 1 -> position s (S k) = (fst p, snd p + 1)) /\
     (d = 2 -> position s (S k) = (fst p + 1, snd p)) /\
     (d = 3 -> position s (S k) = (fst p, snd p - 1)) /\
     chebyshev (position s (S k)) p = 1) /\
  (forall x y : nat, (x < 28)%nat -> (y < 28)%nat ->
     ((exists k, (1 <= k <= 40)%nat /\
                 chebyshev (Z.of_nat x, Z.of_nat y) (position s k) <= 5) ->
      np.getitem2 (mask_array s) x y = Some 1%Q) /\
     (~ (exists k, (1 <= k <= 40)%nat /\
                   chebyshev (Z.of_nat x, Z.of_nat y) (position s k) <= 5) ->
      np.getitem2 (mask_array s) x y = Some 0%Q)).
Proof.
  intros Hc.
  split; [now apply start_in_range|]. split; [apply build_mask_run|].
  split; [unfold steps_drawn; now rewrite length_map, length_seq|].
  split; [reflexivity|]. split; [reflexivity|]. split.
  - intros k Hk p d.
    pose proof (step_in_range s k Hc) as Hd. fold d in Hd.
    split.
    { unfold steps_drawn. rewrite list_lookup_fmap, lookup_seq_lt by exact Hk.
      reflexivity. }
    split; [exact Hd|].
    assert (Hpos : position s (S k)
                   = (fst p + fst (direction d), snd p + snd (direction d)))
      by reflexivity.
    repeat split.
    + intros H0. rewrite Hpos, H0. cbn. f_equal; lia.
    + intros H0. rewrite Hpos, H0. cbn. f_equal; lia.
    + intros H0. rewrite Hpos, H0. cbn. f_equal; lia.
    + intros H0. rewrite Hpos, H0. cbn. f_equal; lia.
    + rewrite Hpos. pose proof (direction_unit d Hd) as Hu.
      unfold chebyshev in *. cbn [fst snd] in *. lia.
  - intros x y Hx Hy. rewrite mask_array_lookup by assumption.
    pose proof (visibleb_spec s x y) as Hv. unfold visible in Hv.
    change RANDOM_WALK_LENGTH with 40%nat in Hv.
    change VISIBLE_RADIUS with 5 in Hv.
    destruct (visibleb s x y); split; intros H; try reflexivity.
    + exfalso. apply H, Hv. reflexivity.
    + apply Hv in H. discriminate.
Qed.

(** ** The first window lies inside the grid *)

Lemma filter_length_le {A : Type} (P Q : A -> bool) (l : list A) :
  (forall a, In a l -> P a = true -> Q a = true) ->
  (length (List.filter P l) <= length (List.filter Q l))%nat.
Proof.
  induction l as [|a l IH]; intros H; [reflexivity|].
  assert (IH' : (length (List.filter P l) <= length (List.filter Q l))%nat).
  { apply IH. intros b Hb. apply H. now right. }
  cbn [List.filter]. destruct (P a) eqn:HP.
  - rewrite (H a (or_introl eq_refl) HP). cbn [length]. lia.
  - destruct (Q a); cbn [length]; lia.
Qed.

Lemma filter_row_length {A B : Type} (p : A -> bool) (q : B -> bool)
    (x : A) (ys : list B) :
  length (List.filter (fun c => p (fst c) && q (snd c)) (map (fun y => (x, y)) ys))
  = if p x then length (List.filter q ys) else 0%nat.
Proof.
  induction ys as [|y ys IHy]; [now destruct (p x)|].
  cbn [map List.filter fst snd]. revert IHy.
  destruct (p x), (q y); intros IHy; cbn [andb length]; lia.
Qed.

Lemma filter_prod_length {A B : Type} (p : A -> bool) (q : B -> bool)
    (xs : list A) (ys : list B) :
  length (List.filter (fun c => p (fst c) && q (snd c)) (list_prod xs ys))
  = (length (List.filter p xs) * length (List.filter q ys))%nat.
Proof.
  induction xs as [|x xs IH]; [reflexivity|].
  cbn [list_prod]. rewrite List.filter_app, length_app, IH.
  rewrite filter_row_length. cbn [List.filter].
  destruct (p x); cbn [length]; lia.
Qed.

Lemma interval_count (a : nat) :
  (1 <= a <= 16)%nat ->
  length (List.filter (fun x => (a <=? x)%nat && (x <=? a + 10)%nat) (seq 0 28)) = 11%nat.
Proof.
  intros H. do 17 (destruct a as [|a]; [try lia; reflexivity|]). lia.
Qed.

Lemma block_count (a b : nat) :
  (1 <= a <= 16)%nat -> (1 <= b <= 16)%nat ->
  length (List.filter (in_block a b) grid_cells) = 121%nat.
Proof.
  intros Ha Hb. unfold in_block, grid_cells.
  rewrite (filter_prod_length (fun x => (a <=? x)%nat && (x <=? a + 10)%nat)
                              (fun y => (b <=? y)%nat && (y <=? b + 10)%nat)).
  now rewrite !interval_count.
Qed.

Lemma first_position_in_range (s : RandomState) :
  randint_contract s ->
  6 <= fst (position s 1) <= 21 /\ 6 <= snd (position s 1) <= 21.
Proof.
  intros Hc. destruct (start_in_range s Hc) as [Hr Hcol].
  pose proof (step_in_range s 0 Hc) as Hd.
  cbn [position] in *.
  assert (Hcases : step_drawn s 0 = 0 \/ step_drawn s 0 = 1 \/
                   step_drawn s 0 = 2 \/ step_drawn s 0 = 3) by lia.
  destruct Hcases as [-> | [-> | [-> | ->]]]; cbn [direction fst snd]; lia.
Qed.

Lemma first_window_marked (s : RandomState) (x y : nat) :
  Z.abs (Z.of_nat x - fst (position s 1)) <= 5 ->
  Z.abs (Z.of_nat y - snd (position s 1)) <= 5 ->
  visibleb s x y = true.
Proof.
  intros Hx Hy. apply visibleb_spec. exists 1%nat.
  split; [unfold RANDOM_WALK_LENGTH; lia|].
  unfold chebyshev, VISIBLE_RADIUS. cbn [fst snd]. lia.
Qed.

(** C9. The visibility region is never empty.  After the first step the
    agent is in [6, 21] x [6, 21], so every cell within the visible
    radius of that position is a cell of the 28x28 grid and is marked;
    at least 121 cells of the mask are marked, and the returned image
    agrees with the input on the complete 11x11 block around that
    position. *)
Theorem visibility_region_never_empty
    (image : ndarray) (walk_length visible_radius : Z) (s : RandomState) :
  shape image = [28; 28]%nat -> well_formed image -> randint_contract s ->
  let p := position s 1 in
  (6 <= fst p <= 21 /\ 6 <= snd p <= 21) /\
  (121 <= length (marked_cells (mask_array s)))%nat /\
  exists out s',
    mask image walk_length visible_radius s = inr (out, s') /\
    forall x y : Z,
      Z.abs (x - fst p) <= VISIBLE_RADIUS -> Z.abs (y - snd p) <= VISIBLE_RADIUS ->
      (0 <= x < 28 /\ 0 <= y < 28) /\
      np.getitem2 (mask_array s) (Z.to_nat x) (Z.to_nat y) = Some 1%Q /\
      exists v, np.getitem2 image (Z.to_nat x) (Z.to_nat y) = Some v /\
                np.getitem2 out (Z.to_nat x) (Z.to_nat y) = Some v.
Proof.
  intros Hs Hwf Hc p.
  pose proof (first_position_in_range s Hc) as [Hr Hcol]. fold p in Hr, Hcol.
  split; [now split|]. split.
  - rewrite <- (block_count (Z.to_nat (fst p - 5)) (Z.to_nat (snd p - 5))) by lia.
    apply filter_length_le. intros [x y] Hin Hb.
    unfold grid_cells in Hin. apply in_prod_iff in Hin as [Hx Hy].
    apply in_seq in Hx, Hy.
    unfold in_block in Hb. cbn [fst snd] in *.
    apply andb_prop in Hb as [Hb1 Hb2].
    apply andb_prop in Hb1 as [H1 H2]. apply andb_prop in Hb2 as [H3 H4].
    apply Nat.leb_le in H1, H2, H3, H4.
    rewrite mask_array_lookup by lia.
    rewrite first_window_marked by (fold p; lia). reflexivity.
  - exists (np.multiply image (mask_array s)), (advance s 42).
    split; [now apply mask_run_2d|].
    unfold VISIBLE_RADIUS. intros x y Hx Hy.
    assert (Hxr : 0 <= x < 28) by lia. assert (Hyr : 0 <= y < 28) by lia.
    split; [now split|].
    assert (Hxn : (Z.to_nat x < 28)%nat) by lia.
    assert (Hyn : (Z.to_nat y < 28)%nat) by lia.
    assert (Hvis : visibleb s (Z.to_nat x) (Z.to_nat y) = true).
    { apply first_window_marked; fold p; rewrite Z2Nat.id; lia. }
    split; [rewrite mask_array_lookup, Hvis by assumption; reflexivity|].
    destruct (image_lookup image _ _ Hs Hwf Hxn Hyn) as [v Hv].
    exists v. split; [exact Hv|].
    rewrite (masked_pixel image s _ _ v) by assumption.
    rewrite Hvis, Qmult_one. reflexivity.
Qed.

(** ** The metrics *)

Lemma comprehension_pure {St I A : Type} (f : I -> M St A) (g : I -> A)
    (items : list I) (s : St) :
  (forall i, In i items -> f i s = inr (g i, s)) ->
  list_comprehension f items s = inr (map g items, s).
Proof.
  induction items as [|i items IH]; intros H; [reflexivity|].
  cbn [list_comprehension map]. unfold bind at 1.
  rewrite (H i) by now left. unfold bind at 1.
  rewrite IH by (intros j Hj; apply H; now right). reflexivity.
Qed.

Lemma argmax_from_spec (rest : list Q) : forall (pre : list Q) (best : Q) (best_i : nat),
  pre !! best_i = Some best ->
  (forall j w, pre !! j = Some w -> (w <= best)%Q) ->
  (forall j w, (j < best_i)%nat -> pre !! j = Some w -> (w < best)%Q) ->
  is_argmax (pre ++ rest) (np.argmax_from best best_i (length pre) rest).
Proof.
  induction rest as [|v rest IH]; intros pre best best_i Hb Hmax Hfirst.
  - cbn [np.argmax_from]. rewrite app_nil_r. exists best. auto.
  - cbn [np.argmax_from].
    replace (pre ++ v :: rest) with ((pre ++ [v]) ++ rest)
      by (rewrite <- app_assoc; reflexivity).
    replace (S (length pre)) with (length (pre ++ [v]))
      by (rewrite length_app; cbn; lia).
    destruct (Qlt_le_dec best v) as [Hlt|Hle].
    + apply IH.
      * apply list_lookup_middle. reflexivity.
      * intros j w Hj. apply lookup_app_Some in Hj as [Hj|[Hge Hj]].
        -- apply Qlt_le_weak. eapply Qle_lt_trans; [now apply (Hmax j)|exact Hlt].
        -- apply list_lookup_singleton_Some in Hj as [_ <-]. apply Qle_refl.
      * intros j w Hlt' Hj. rewrite lookup_app_l in Hj by exact Hlt'.
        eapply Qle_lt_trans; [now apply (Hmax j)|exact Hlt].
    + apply lookup_lt_Some in Hb as Hbi. apply IH.
      * rewrite lookup_app_l by exact Hbi. exact Hb.
      * intros j w Hj. apply lookup_app_Some in Hj as [Hj|[Hge Hj]].
        -- now apply (Hmax j).
        -- apply list_lookup_singleton_Some in Hj as [_ <-]. exact Hle.
      * intros j w Hlt' Hj. rewrite lookup_app_l in Hj by lia.
        now apply (Hfirst j).
Qed.

Lemma label_of_argmax (row : list Q) :
  row <> [] -> exists i, label_of row = Z.of_nat i /\ is_argmax row i.
Proof.
  destruct row as [|v rest]; [congruence|]. intros _.
  exists (np.argmax_from v 0 1 rest). split; [reflexivity|].
  apply (argmax_from_spec rest [v] v 0%nat).
  - reflexivity.
  - intros j w Hj. apply list_lookup_singleton_Some in Hj as [_ <-]. apply Qle_refl.
  - intros j w Hj. lia.
Qed.

Lemma argmax_rows_run {St : Type} (rows : list (list Q)) (s : St) :
  Forall (fun row => row <> []) rows ->
  np.argmax_rows rows s = inr (map label_of rows, s).
Proof.
  intros Hne. unfold np.argmax_rows. apply comprehension_pure.
  intros row Hin. rewrite Forall_forall in Hne.
  apply list_elem_of_In, Hne in Hin. destruct row; [congruence|reflexivity].
Qed.

Lemma sum_from (b : list bool) : forall acc : nat,
  fold_left (fun acc (x : bool) => if x then S acc else acc) b acc
  = (acc + np.sum b)%nat.
Proof.
  unfold np.sum. induction b as [|x b IH]; intros acc; cbn [fold_left]; [lia|].
  rewrite IH. rewrite (IH (if x then 1%nat else 0%nat)). destruct x; lia.
Qed.

Lemma sum_cons (x : bool) (b : list bool) :
  np.sum (x :: b) = ((if x then 1 else 0) + np.sum b)%nat.
Proof. unfold np.sum at 1. cbn [fold_left]. rewrite sum_from. reflexivity. Qed.

Lemma sum_map_filter {A : Type} (p : A -> bool) (l : list A) :
  np.sum (map p l) = length (List.filter p l).
Proof.
  induction l as [|a l IH]; [reflexivity|].
  cbn [map List.filter]. rewrite sum_cons, IH. destruct (p a); reflexivity.
Qed.

Lemma count_indices_S (n : nat) (P : nat -> bool) :
  count_indices (S n) P
  = ((if P 0%nat then 1 else 0) + count_indices n (fun k => P (S k)))%nat.
Proof.
  unfold count_indices. cbn [seq List.filter]. rewrite <- seq_shift.
  assert (H : forall l, length (List.filter P (map S l))
                        = length (List.filter (fun k => P (S k)) l)).
  { induction l as [|a l IH]; [reflexivity|].
    cbn [map List.filter]. destruct (P (S a)); cbn [length]; now rewrite IH. }
  rewrite <- H. destruct (P 0%nat); reflexivity.
Qed.

Lemma count_indices_ext (n : nat) (P Q : nat -> bool) :
  (forall k, (k < n)%nat -> P k = Q k) -> count_indices n P = count_indices n Q.
Proof.
  intros H. unfold count_indices. f_equal. apply List.filter_ext_in.
  intros k Hk. apply in_seq in Hk. apply H. lia.
Qed.

Lemma sum_equal_count (a b : list Z) :
  length a = length b ->
  np.sum (zip_with Z.eqb a b)
  = count_indices (length b) (fun k => bool_decide (a !! k = b !! k)).
Proof.
  revert b. induction a as [|x a IH]; intros [|y b] Hlen; try discriminate.
  - reflexivity.
  - cbn [zip_with length]. rewrite sum_cons, count_indices_S.
    cbn [lookup list_lookup]. rewrite IH by (cbn in Hlen; lia). f_equal.
    destruct (Z.eqb_spec x y) as [->|Hne].
    + now rewrite bool_decide_eq_true_2.
    + rewrite bool_decide_eq_false_2; [reflexivity|congruence].
Qed.

Lemma filter_filter {A : Type} (p q : A -> bool) (l : list A) :
  List.filter p (List.filter q l) = List.filter (fun x => q x && p x) l.
Proof.
  induction l as [|a l IH]; [reflexivity|].
  cbn [List.filter]. destruct (q a); cbn [List.filter andb]; now rewrite IH.
Qed.

Lemma take_run {St A : Type} (d : A) (a : list A) (indices : list nat) (s : St) :
  Forall (fun k => (k < length a)%nat) indices ->
  np.take a indices s = inr (map (fun k => default d (a !! k)) indices, s).
Proof.
  intros H. unfold np.take. apply comprehension_pure.
  intros k Hk. rewrite Forall_forall in H. apply list_elem_of_In, H in Hk.
  unfold py_getitem. destruct (lookup_lt_is_Some_2 a k Hk) as [x Hx].
  now rewrite Hx.
Qed.

Lemma eqb_bool_decide (v i : Z) : (v =? i) = bool_decide (Some v = Some i).
Proof.
  destruct (Z.eqb_spec v i) as [->|Hne].
  - now rewrite bool_decide_eq_true_2.
  - rewrite bool_decide_eq_false_2; [reflexivity|congruence].
Qed.

Lemma equal_scalar_nth (y : list Z) (i : Z) (k : nat) :
  (k < length y)%nat ->
  nth k (np.equal_scalar y i) false = bool_decide (y !! k = Some i).
Proof.
  intros Hk. destruct (lookup_lt_is_Some_2 y k Hk) as [v Hv].
  unfold np.equal_scalar. rewrite nth_lookup, list_lookup_fmap, Hv. cbn.
  apply eqb_bool_decide.
Qed.

Section MetricsProofs.

Context {K : Keras}.

Lemma classifications_length (self : ACGAN) :
  length (classifications self) = length (X_test_masked self).
Proof. unfold classifications. now rewrite length_map. Qed.

Lemma classifications_nonempty (self : ACGAN) :
  Forall (fun row => row <> []) (classifications self).
Proof.
  unfold classifications. apply Forall_forall. intros row Hin.
  apply list_elem_of_In, in_map_iff in Hin as (img & <- & _).
  pose proof (discriminator_classes (net self) img) as Hl.
  destruct (snd (discriminator_predict (net self) img)); [discriminate|congruence].
Qed.

Lemma predicted_label_lookup (self : ACGAN) (k : nat) :
  predicted_label self k = label_of <$> (classifications self !! k).
Proof.
  unfold predicted_label, classifications. rewrite list_lookup_fmap.
  now destruct (X_test_masked self !! k).
Qed.

Lemma class_recall_run (self : ACGAN) (i : nat) (e : Env) :
  length (X_test_masked self) = length (y_test self) ->
  class_recall self (classifications self) i e
  = inr (np.true_divide (class_hits self (Z.of_nat i))
                        (class_total self (Z.of_nat i)), e).
Proof.
  intros Hlen. unfold class_recall.
  set (cond := np.equal_scalar (y_test self) (Z.of_nat i)).
  set (indices := np.where_true cond).
  assert (Hcond : length cond = length (y_test self)).
  { unfold cond, np.equal_scalar. now rewrite length_map. }
  assert (Hidx : Forall (fun k => (k < length (classifications self))%nat) indices).
  { apply Forall_forall. intros k Hk. unfold indices, np.where_true in Hk.
    apply list_elem_of_In, filter_In in Hk as [Hk _]. apply in_seq in Hk.
    rewrite classifications_length. lia. }
  unfold bind at 1. rewrite (take_run []) by exact Hidx.
  unfold bind at 1. rewrite argmax_rows_run.
  2:{ apply Forall_forall. intros row Hrow.
      apply list_elem_of_In, in_map_iff in Hrow as (k & <- & Hk).
      rewrite Forall_forall in Hidx. apply list_elem_of_In, Hidx in Hk.
      destruct (lookup_lt_is_Some_2 _ _ Hk) as [row Hrow]. rewrite Hrow. cbn.
      pose proof (classifications_nonempty self) as Hne.
      rewrite Forall_forall in Hne. apply Hne.
      eapply list_elem_of_lookup_2. exact Hrow. }
  unfold ret. do 3 f_equal.
  - unfold np.equal_scalar at 1. rewrite !map_map, sum_map_filter.
    unfold indices, np.where_true. rewrite filter_filter, Hcond.
    apply count_indices_ext. intros k Hk.
    unfold cond. rewrite equal_scalar_nth by exact Hk. f_equal.
    rewrite predicted_label_lookup.
    destruct (lookup_lt_is_Some_2 (classifications self) k) as [row Hrow].
    { rewrite classifications_length. lia. }
    rewrite Hrow. cbn. apply eqb_bool_decide.
  - unfold indices, np.where_true. rewrite Hcond.
    apply count_indices_ext. intros k Hk.
    unfold cond. now apply equal_scalar_nth.
Qed.

Lemma test_masked_accuracy_run (self : ACGAN) (epoch : nat) (e : Env) :
  length (X_test_masked self) = length (y_test self) ->
  test_masked_accuracy self epoch e
  = inr (append_recall
           (append_accuracy self
              (np.true_divide (correct_count self) (length (y_test self)), epoch))
           (map (fun i => np.true_divide (class_hits self (Z.of_nat i))
                                         (class_total self (Z.of_nat i)))
                (seq 0 10), epoch),
         logged e [EvDiscriminatorPredict (X_test_masked self);
                   EvSavefig accuracy_png; EvSavefig recall_png]).
Proof.
  intros Hlen. unfold test_masked_accuracy.
  unfold bind at 1. unfold discriminator_predict_batch.
  unfold bind at 1. cbn [emit]. unfold ret at 1. cbn [snd].
  fold (classifications self).
  unfold bind at 1. rewrite argmax_rows_run by apply classifications_nonempty.
  unfold bind at 1. unfold np.equal.
  rewrite length_map, classifications_length, Hlen, Nat.eqb_refl.
  unfold ret at 1.
  unfold bind at 1. cbn [emit].
  unfold bind at 1.
  rewrite (comprehension_pure _
             (fun i => np.true_divide (class_hits self (Z.of_nat i))
                                      (class_total self (Z.of_nat i)))).
  2:{ intros i _. apply (class_recall_run self i). exact Hlen. }
  unfold bind at 1. cbn [emit]. unfold ret, logged. cbn [py_random np_random trace].
  rewrite <- !app_assoc. cbn [app].
  rewrite sum_equal_count by (rewrite length_map, classifications_length; exact Hlen).
  do 5 f_equal. unfold correct_count. f_equal. apply count_indices_ext.
  intros k _. rewrite predicted_label_lookup, list_lookup_fmap. reflexivity.
Qed.

End MetricsProofs.

(** ** Masking a batch *)

Lemma maskable_image28 (a : ndarray) : image28 a -> maskable a.
Proof.
  intros [Hs _]. exists a. split; [exact Hs|].
  intros s. now apply mask_run_2d.
Qed.

Lemma maskable_expand_dims (a : ndarray) :
  image28 a -> maskable (np.expand_dims_last a).
Proof.
  intros [Hs Hwf]. exists a. split; [exact Hs|].
  intros s. unfold mask_default. rewrite mask_expand_dims by assumption.
  now apply mask_run_2d.
Qed.

Lemma advance_advance (s : RandomState) (n m : nat) :
  advance (advance s n) m = advance s (n + m).
Proof. unfold advance. cbn. f_equal. lia. Qed.

Lemma advance_0 (s : RandomState) : advance s 0 = s.
Proof. destruct s. unfold advance. cbn. f_equal. lia. Qed.

Lemma mask_batch_run (imgs : list ndarray) : forall s : RandomState,
  Forall maskable imgs ->
  exists masked,
    list_comprehension mask_default imgs s
    = inr (masked, advance s (42 * length imgs)) /\
    length masked = length imgs /\
    Forall (fun m => shape m = [28; 28]%nat) masked.
Proof.
  induction imgs as [|img imgs IH]; intros s Hall.
  - exists []. cbn [list_comprehension length]. rewrite Nat.mul_0_r, advance_0.
    repeat split. constructor.
  - apply Forall_cons in Hall as [(gray & Hg & Hrun) Hall].
    destruct (IH (advance s 42) Hall) as (masked & Hrest & Hlen & Hsh).
    exists (np.multiply gray (mask_array s) :: masked).
    cbn [list_comprehension]. unfold bind at 1. rewrite Hrun.
    unfold bind at 1. rewrite Hrest. unfold ret.
    rewrite advance_advance. cbn [length].
    replace (42 + 42 * length imgs)%nat with (42 * S (length imgs))%nat by lia.
    repeat split; [now rewrite Hlen|].
    constructor; [exact Hg|exact Hsh].
Qed.

Lemma with_random_run {A : Type} (m : M RandomState A) (e : Env) (a : A)
    (r : RandomState) :
  m (py_random e) = inr (a, r) ->
  with_random m e
  = inr (a, {| py_random := r; np_random := np_random e; trace := trace e |}).
Proof. intros H. unfold with_random. now rewrite H. Qed.

Lemma items_run {St A : Type} (d : A) (l : list A) (idx : list Z) (s : St) :
  Forall (fun i => 0 <= i < Z.of_nat (length l)) idx ->
  list_comprehension (np.item l) idx s
  = inr (map (fun i => default d (l !! Z.to_nat i)) idx, s).
Proof.
  intros H. apply comprehension_pure. intros i Hi.
  rewrite Forall_forall in H. apply list_elem_of_In, H in Hi.
  unfold np.item. destruct (Z.ltb_spec i 0) as [Hneg|_]; [lia|].
  unfold py_getitem.
  destruct (lookup_lt_is_Some_2 l (Z.to_nat i)) as [x Hx]; [lia|].
  now rewrite Hx.
Qed.

(** ** Plotting the samples *)

Lemma plot_row_run (gen : list ndarray) (n : nat) : forall (from cnt : nat) (e : Env),
  (cnt + n <= length gen)%nat ->
  Forall (fun g => shape g = [28; 28; 1]%nat) gen ->
  for_each (fun (j cnt : nat) =>
              let* img := py_getitem gen cnt in
              let* _ := np.channel0 img in
              ret (S cnt)) (seq from n) cnt e
  = inr ((cnt + n)%nat, e).
Proof.
  induction n as [|n IH]; intros from cnt e Hlen Hsh.
  - cbn. unfold ret. do 2 f_equal. lia.
  - cbn [seq for_each]. unfold bind at 1. unfold bind at 1. unfold py_getitem.
    destruct (lookup_lt_is_Some_2 gen cnt) as [img Himg]; [lia|].
    rewrite Himg. unfold ret at 1. unfold bind at 1.
    rewrite Forall_forall in Hsh.
    pose proof (Hsh img (list_elem_of_lookup_2 _ _ _ Himg)) as Hi.
    unfold np.channel0. rewrite Hi. cbn [Nat.eqb]. unfold ret at 1 2.
    rewrite IH; [|lia|now apply Forall_forall].
    do 2 f_equal. lia.
Qed.

Lemma plot_grid_run (gen : list ndarray) (m : nat) : forall (from cnt : nat) (e : Env),
  (cnt + 10 * m <= length gen)%nat ->
  Forall (fun g => shape g = [28; 28; 1]%nat) gen ->
  for_each (fun (i cnt : nat) =>
              for_each (fun (j cnt : nat) =>
                          let* img := py_getitem gen cnt in
                          let* _ := np.channel0 img in
                          ret (S cnt)) (seq 0 10) cnt) (seq from m) cnt e
  = inr ((cnt + 10 * m)%nat, e).
Proof.
  induction m as [|m IH]; intros from cnt e Hlen Hsh.
  - cbn [seq for_each]. unfold ret. do 2 f_equal. lia.
  - cbn [seq for_each].
    assert (Hrow := plot_row_run gen 10 0 cnt e ltac:(lia) Hsh).
    rewrite (bind_inr _ _ _ _ _ Hrow).
    rewrite IH by (try lia; assumption). do 2 f_equal. lia.
Qed.

(** ** The training loop *)

Section TrainingProofs.

Context {K : Keras}.

Lemma generator_predict_batch_run (self : ACGAN) (x : list ndarray) (e : Env) :
  generator_predict_batch self x e
  = inr (map (generator_predict (net self)) x, logged e [EvGeneratorPredict x]).
Proof. reflexivity. Qed.

Lemma sample_images_run (self : ACGAN) (epoch : nat) (e : Env) :
  Forall image28 (X_test self) -> (100 <= length (X_test self))%nat ->
  exists sampled,
    sample_images self epoch e
    = inr (tt, {| py_random := advance (py_random e) 4200;
                  np_random := np_random e;
                  trace := trace e ++ [EvGeneratorPredict sampled;
                                       EvSavefig (sample_png epoch)] |}).
Proof.
  intros Himgs Hlen. unfold sample_images.
  destruct (mask_batch_run (take (10 * 10) (X_test self)) (py_random e))
    as (masked & Hrun & Hml & _).
  { apply Forall_take. eapply Forall_impl; [exact Himgs|]. apply maskable_image28. }
  rewrite length_take in Hrun, Hml.
  assert (Hmin : ((10 * 10) `min` length (X_test self))%nat = 100%nat) by lia.
  rewrite Hmin in Hrun, Hml. change (42 * 100)%nat with 4200%nat in Hrun.
  exists masked.
  rewrite (bind_inr _ _ _ _ _ (with_random_run _ _ _ _ Hrun)).
  rewrite (bind_inr _ _ _ _ _ (generator_predict_batch_run self masked _)).
  erewrite bind_inr.
  2:{ apply (plot_grid_run _ 10 0 0).
      - rewrite !length_map. lia.
      - apply Forall_forall. intros g Hg.
        apply list_elem_of_In, in_map_iff in Hg as (g0 & <- & Hg0).
        apply in_map_iff in Hg0 as (x & <- & _). cbn [shape].
        apply generator_output_shape. }
  unfold emit, logged. cbn [py_random np_random trace].
  rewrite <- app_assoc. reflexivity.
Qed.

Lemma normalize_image28 (a : ndarray) : image28 a -> image28 (normalize a).
Proof.
  intros [Hs Hwf]. split; [exact Hs|].
  unfold well_formed, normalize in *. cbn [shape data]. now rewrite length_map.
Qed.

Lemma discriminator_train_run (self : ACGAN) (x : list ndarray) (v : list Q)
    (l : list Z) (e : Env) :
  discriminator_train self x v l e
  = inr ((set_net self (fst (discriminator_train_on_batch (net self) x v l)),
          snd (discriminator_train_on_batch (net self) x v l)),
         logged e [EvDiscriminatorTrain x v l]).
Proof. reflexivity. Qed.

Lemma combined_train_run (self : ACGAN) (x : list ndarray) (v : list Q)
    (l : list Z) (e : Env) :
  combined_train self x v l e
  = inr ((set_net self (fst (combined_train_on_batch (discriminator_trainable self)
                                                     (net self) x v l)),
          snd (combined_train_on_batch (discriminator_trainable self)
                                       (net self) x v l)),
         logged e [EvCombinedTrain (discriminator_trainable self) x v l]).
Proof. reflexivity. Qed.

Lemma py_getitem_run {St A : Type} (l : list A) (i : nat) (a : A) (s : St) :
  l !! i = Some a -> py_getitem l i s = inr (a, s).
Proof. intros H. unfold py_getitem. now rewrite H. Qed.

Lemma emit_run (ev : Event) (e : Env) : emit ev e = inr (tt, logged e [ev]).
Proof. reflexivity. Qed.

Lemma py_mod_run {St : Type} (a b : Z) (s : St) :
  b <> 0 -> py_mod a b s = inr (a mod b, s).
Proof. intros H. unfold py_mod. destruct (Z.eqb_spec b 0); [contradiction|reflexivity]. Qed.

Lemma save_model_run (self : ACGAN) (e : Env) :
  save_model self e
  = inr (tt, logged (logged e [EvSaveModel saved_generator])
                    [EvSaveModel saved_discriminator]).
Proof. reflexivity. Qed.

Lemma averaged_lookup (real fake : list Q) (k : nat) (a b : Q) :
  real !! k = Some a -> fake !! k = Some b ->
  map (Qmult (1 # 2)) (zip_with Qplus real fake) !! k = Some ((1 # 2) * (a + b))%Q.
Proof.
  intros Ha Hb. rewrite list_lookup_fmap, lookup_zip_with, Ha, Hb. reflexivity.
Qed.

Lemma evaluation_run (self : ACGAN) (epoch : nat) (e : Env) :
  Forall image28 (X_test self) -> (100 <= length (X_test self))%nat ->
  length (X_test_masked self) = length (y_test self) ->
  exists self' e' sampled,
    (let* _ := save_model self in
     let* _ := sample_images self epoch in
     test_masked_accuracy self epoch) e = inr (self', e') /\
    trace e' = trace e ++ evaluation_events self epoch sampled /\
    np_random e' = np_random e /\
    net self' = net self /\
    same_data self self' /\
    scores_appended self self' epoch.
Proof.
  intros Htest H100 Hmasked.
  rewrite (bind_inr _ _ _ _ _ (save_model_run self e)).
  destruct (sample_images_run self epoch
              (logged (logged e [EvSaveModel saved_generator])
                      [EvSaveModel saved_discriminator]) Htest H100)
    as (sampled & Hsample).
  rewrite (bind_inr _ _ _ _ _ Hsample).
  rewrite test_masked_accuracy_run by exact Hmasked.
  eexists _, _, sampled. split; [reflexivity|].
  split.
  { unfold logged, evaluation_events. cbn [trace].
    rewrite <- !app_assoc. reflexivity. }
  split; [reflexivity|]. split; [reflexivity|].
  split; [repeat split|]. split; reflexivity.
Qed.

Lemma train_epoch_run (self : ACGAN) (e : Env) (batch_size : nat)
    (sample_interval : Z) (epoch : nat) :
  dataset_ok self -> np_randint_contract (np_random e) ->
  sample_interval <> 0 ->
  exists self' e',
    train_epoch (configured self) (y_train self)
                (replicate batch_size 1%Q) (replicate batch_size 0%Q)
                batch_size sample_interval epoch self e = inr (self', e') /\
    epoch_spec self e batch_size sample_interval epoch self' e' /\
    same_data self self' /\
    np_randint_contract (np_random e') /\
    (Z.of_nat epoch mod sample_interval = 0 -> scores_appended self self' epoch) /\
    (Z.of_nat epoch mod sample_interval <> 0 -> scores_unchanged self self').
Proof.
  intros (Hne & Htrain & Hy & Htest & H100 & Hmasked) Hnp Hsi.
  set (N := length (X_train self)).
  assert (HN : (0 < N)%nat).
  { unfold N. destruct (X_train self); [congruence|cbn; lia]. }
  assert (Hconf : length (configured self) = N).
  { unfold configured. now rewrite length_map. }
  unfold train_epoch. rewrite Hconf.
  (* the batch *)
  set (idx := map (np_outcome (np_random e) 0 (Z.of_nat N) (np_calls (np_random e)))
                  (seq 0 batch_size)).
  set (e1 := {| py_random := py_random e;
                np_random := {| np_outcome := np_outcome (np_random e);
                                np_calls := S (np_calls (np_random e)) |};
                trace := trace e ++ [EvNpRandint 0 (Z.of_nat N) batch_size] |}).
  assert (Hdraw : np_random_randint 0 (Z.of_nat N) batch_size e = inr (idx, e1)).
  { unfold np_random_randint. destruct (Z.leb_spec (Z.of_nat N) 0); [lia|reflexivity]. }
  rewrite (bind_inr _ _ _ _ _ Hdraw).
  assert (Hidx : Forall (fun i => 0 <= i < Z.of_nat N) idx).
  { apply Forall_forall. intros i Hi. unfold idx in Hi.
    apply list_elem_of_In, in_map_iff in Hi as (j & <- & _). apply Hnp. lia. }
  set (imgs := map (fun i => default (np.zeros []) (configured self !! Z.to_nat i)) idx).
  assert (Himgs : list_comprehension (np.item (configured self)) idx e1 = inr (imgs, e1)).
  { apply items_run. rewrite Hconf. exact Hidx. }
  rewrite (bind_inr _ _ _ _ _ Himgs).
  assert (Hlook : forall i, 0 <= i < Z.of_nat N ->
            exists a, X_train self !! Z.to_nat i = Some a /\ image28 a /\
                      configured self !! Z.to_nat i
                      = Some (np.expand_dims_last (normalize a))).
  { intros i Hi.
    destruct (lookup_lt_is_Some_2 (X_train self) (Z.to_nat i)) as [a Ha];
      [fold N; lia|].
    exists a. split; [exact Ha|]. split.
    - rewrite Forall_forall in Htrain. apply Htrain.
      eapply list_elem_of_lookup_2. exact Ha.
    - unfold configured. rewrite list_lookup_fmap, Ha. reflexivity. }
  assert (Hmaskable : Forall maskable imgs).
  { apply Forall_forall. intros img Himg. unfold imgs in Himg.
    apply list_elem_of_In, in_map_iff in Himg as (i & <- & Hi).
    rewrite Forall_forall in Hidx. apply list_elem_of_In, Hidx in Hi.
    destruct (Hlook i Hi) as (a & _ & Ha28 & ->). cbn.
    now apply maskable_expand_dims, normalize_image28. }
  destruct (mask_batch_run imgs (py_random e1) Hmaskable)
    as (masked & Hrun & Hml & Hsh).
  rewrite (bind_inr _ _ _ _ _ (with_random_run _ _ _ _ Hrun)).
  rewrite (bind_inr _ _ _ _ _ (generator_predict_batch_run self masked _)).
  set (labels := map (fun i => default 0 (y_train self !! Z.to_nat i)) idx).
  erewrite bind_inr; [|apply (items_run 0); rewrite Hy; exact Hidx].
  fold labels.
  rewrite (bind_inr _ _ _ _ _ (discriminator_train_run _ _ _ _ _)). cbn [fst snd].
  rewrite (bind_inr _ _ _ _ _ (discriminator_train_run _ _ _ _ _)). cbn [fst snd].
  rewrite (bind_inr _ _ _ _ _ (combined_train_run _ _ _ _ _)). cbn [fst snd].
  cbn [set_net net discriminator_trainable].
  set (flag := discriminator_trainable self).
  set (valid := replicate batch_size 1%Q).
  set (fake := replicate batch_size 0%Q).
  set (gen := map (generator_predict (net self)) masked).
  set (r1 := discriminator_train_on_batch (net self) imgs valid labels).
  set (r2 := discriminator_train_on_batch (fst r1) gen fake labels).
  set (r3 := combined_train_on_batch flag (fst r2) masked valid labels).
  set (self3 := set_net (set_net (set_net self (fst r1)) (fst r2)) (fst r3)).
  assert (Hl1 : length (snd r1) = 5%nat) by apply discriminator_metrics.
  assert (Hl2 : length (snd r2) = 5%nat) by apply discriminator_metrics.
  assert (Hl3 : length (snd r3) = 3%nat) by apply combined_metrics.
  destruct (lookup_lt_is_Some_2 (snd r1) 0) as [a0 Ha0]; [lia|].
  destruct (lookup_lt_is_Some_2 (snd r1) 3) as [a3 Ha3]; [lia|].
  destruct (lookup_lt_is_Some_2 (snd r1) 4) as [a4 Ha4]; [lia|].
  destruct (lookup_lt_is_Some_2 (snd r2) 0) as [b0 Hb0]; [lia|].
  destruct (lookup_lt_is_Some_2 (snd r2) 3) as [b3 Hb3]; [lia|].
  destruct (lookup_lt_is_Some_2 (snd r2) 4) as [b4 Hb4]; [lia|].
  destruct (lookup_lt_is_Some_2 (snd r3) 0) as [g0 Hg0]; [lia|].
  rewrite (bind_inr _ _ _ _ _ (py_getitem_run _ _ _ _ (averaged_lookup _ _ _ _ _ Ha0 Hb0))).
  rewrite (bind_inr _ _ _ _ _ (py_getitem_run _ _ _ _ (averaged_lookup _ _ _ _ _ Ha3 Hb3))).
  rewrite (bind_inr _ _ _ _ _ (py_getitem_run _ _ _ _ (averaged_lookup _ _ _ _ _ Ha4 Hb4))).
  rewrite (bind_inr _ _ _ _ _ (py_getitem_run _ _ _ _ Hg0)).
  rewrite (bind_inr _ _ _ _ _ (emit_run _ _)).
  rewrite (bind_inr _ _ _ _ _ (py_mod_run _ _ _ Hsi)).
  match goal with
  | |- context [(if _ then _ else _) ?env] => set (e5 := env)
  end.
  assert (Htrace5 : trace e5 = trace e ++
            [EvNpRandint 0 (Z.of_nat N) batch_size;
             EvGeneratorPredict masked;
             EvDiscriminatorTrain imgs valid labels;
             EvDiscriminatorTrain gen fake labels;
             EvCombinedTrain flag masked valid labels;
             EvPrint epoch ((1 # 2) * (a0 + b0))%Q (100 * ((1 # 2) * (a3 + b3)))%Q
                     (100 * ((1 # 2) * (a4 + b4)))%Q g0]).
  { unfold e5, logged, e1. cbn [trace]. rewrite <- !app_assoc. reflexivity. }
  assert (Hbranch : exists self' e' tail,
            (if Z.of_nat epoch mod sample_interval =? 0
             then let* _ := save_model self3 in
                  let* _ := sample_images self3 epoch in
                  test_masked_accuracy self3 epoch
             else ret self3) e5 = inr (self', e') /\
            trace e' = trace e5 ++ tail /\
            np_random e' = np_random e5 /\
            net self' = net self3 /\
            same_data self3 self' /\
            (Z.of_nat epoch mod sample_interval = 0 ->
               (exists sampled, tail = evaluation_events self epoch sampled) /\
               scores_appended self3 self' epoch) /\
            (Z.of_nat epoch mod sample_interval <> 0 ->
               tail = [] /\ scores_unchanged self3 self')).
  { destruct (Z.eqb_spec (Z.of_nat epoch mod sample_interval) 0) as [Hz|Hnz].
    - destruct (evaluation_run self3 epoch e5 Htest H100 Hmasked)
        as (self' & e' & sampled & Hrun' & Htr & Hnp' & Hnet & Hsame & Hscores).
      exists self', e', (evaluation_events self epoch sampled).
      split; [exact Hrun'|]. split; [exact Htr|].
      split; [exact Hnp'|]. split; [exact Hnet|]. split; [exact Hsame|].
      split; [intros _; split; [now exists sampled|exact Hscores]|].
      intros Hc. contradiction.
    - exists self3, e5, []. split; [reflexivity|].
      split; [now rewrite app_nil_r|]. split; [reflexivity|].
      split; [reflexivity|]. split; [repeat split|].
      split; [intros Hc; contradiction|]. intros _. repeat split. }
  destruct Hbranch as (self' & e' & tail & Hrun' & Htr & Hnp' & Hnet & Hsame & Hz & Hnz).
  exists self', e'. split; [exact Hrun'|].
  split.
  { exists idx, imgs, masked, labels, (advance (py_random e1) (42 * length imgs)),
           ((1 # 2) * (a0 + b0))%Q, ((1 # 2) * (a3 + b3))%Q,
           ((1 # 2) * (a4 + b4))%Q, g0, tail.
    cbv zeta. fold N valid fake gen flag r1 r2 r3.
    split; [unfold idx; now rewrite length_map, length_seq|].
    split.
    { unfold imgs. apply Forall2_fmap_r, Forall_Forall2_diag.
      eapply Forall_impl; [exact Hidx|]. intros i Hi. cbn beta.
      split; [exact Hi|]. destruct (Hlook i Hi) as (a & _ & _ & ->). reflexivity. }
    split.
    { unfold labels. apply Forall2_fmap_r, Forall_Forall2_diag.
      eapply Forall_impl; [exact Hidx|]. intros i Hi. cbn beta.
      destruct (lookup_lt_is_Some_2 (y_train self) (Z.to_nat i)) as [l Hl];
        [rewrite Hy; unfold N in Hi; lia|].
      unfold compose. now rewrite Hl. }
    split; [exact Hrun|]. split; [exact Hsh|].
    split; [rewrite Htr, Htrace5, <- app_assoc; reflexivity|].
    split.
    { exists a0, b0. split; [exact Ha0|]. split; [exact Hb0|]. ring. }
    split; [exact Hg0|]. split; [rewrite Hnet; reflexivity|].
    split.
    - intros Hc. now destruct (Hz Hc).
    - intros Hc. now destruct (Hnz Hc). }
  split.
  { destruct Hsame as (H1 & H2 & H3 & H4 & H5 & H6).
    repeat split; assumption. }
  split.
  { rewrite Hnp'. intros low high n j Hlh. apply Hnp. exact Hlh. }
  split.
  - intros Hc. destruct (Hz Hc) as [_ Hs]. exact Hs.
  - intros Hc. destruct (Hnz Hc) as [_ Hs]. exact Hs.
Qed.

Lemma for_each_app {St I A : Type} (body : I -> A -> M St A) (l1 l2 : list I) :
  forall (a : A) (s : St),
  for_each body (l1 ++ l2) a s
  = match for_each body l1 a s with
    | inl err => inl err
    | inr (a', s') => for_each body l2 a' s'
    end.
Proof.
  induction l1 as [|i l1 IH]; intros a s; [reflexivity|].
  cbn [app for_each]. unfold bind. destruct (body i a s) as [err|[a' s']]; [reflexivity|].
  apply IH.
Qed.

Lemma train_succ (self : ACGAN) (n batch_size : nat) (sample_interval : Z) (e : Env) :
  train self (S n) batch_size sample_interval e
  = match train self n batch_size sample_interval e with
    | inl err => inl err
    | inr (selfn, en) =>
        train_epoch (configured self) (y_train self)
                    (replicate batch_size 1%Q) (replicate batch_size 0%Q)
                    batch_size sample_interval n selfn en
    end.
Proof.
  unfold train. rewrite seq_S, for_each_app. cbn [Nat.add].
  fold (configured self).
  destruct (for_each _ (seq 0 n) self e) as [err|[selfn en]]; [reflexivity|].
  cbn [for_each]. unfold bind.
  destruct (train_epoch _ _ _ _ _ _ n selfn en) as [err|[a s]]; reflexivity.
Qed.

Lemma dataset_ok_same (self self' : ACGAN) :
  same_data self self' -> dataset_ok self -> dataset_ok self'.
Proof.
  intros (H1 & H2 & H3 & H4 & H5 & _). unfold dataset_ok.
  now rewrite H1, H2, H3, H4, H5.
Qed.

Lemma same_data_trans (a b c : ACGAN) :
  same_data a b -> same_data b c -> same_data a c.
Proof.
  intros (H1 & H2 & H3 & H4 & H5 & H6) (G1 & G2 & G3 & G4 & G5 & G6).
  unfold same_data. repeat split; congruence.
Qed.

Lemma train_prefix (self : ACGAN) (batch_size : nat) (sample_interval : Z) (e : Env)
    (n : nat) :
  dataset_ok self -> np_randint_contract (np_random e) -> sample_interval <> 0 ->
  exists selfn en,
    train self n batch_size sample_interval e = inr (selfn, en) /\
    same_data self selfn /\ np_randint_contract (np_random en).
Proof.
  intros Hok Hnp Hsi. induction n as [|n (selfn & en & Hrun & Hsame & Hnpn)].
  - exists self, e. split; [reflexivity|]. split; [repeat split|exact Hnp].
  - destruct (train_epoch_run selfn en batch_size sample_interval n
                (dataset_ok_same _ _ Hsame Hok) Hnpn Hsi)
      as (self' & e' & Hep & _ & Hsame' & Hnp' & _).
    exists self', e'. rewrite train_succ, Hrun.
    pose proof Hsame as (H1 & H2 & _). unfold configured in *.
    rewrite H1, H2 in Hep.
    split; [exact Hep|]. split; [|exact Hnp'].
    eapply same_data_trans; [exact Hsame|exact Hsame'].
Qed.

Lemma train_step (self : ACGAN) (batch_size : nat) (sample_interval : Z) (e : Env)
    (n : nat) :
  dataset_ok self -> np_randint_contract (np_random e) -> sample_interval <> 0 ->
  exists selfn en selfn' en',
    train self n batch_size sample_interval e = inr (selfn, en) /\
    train_epoch (configured self) (y_train self)
                (replicate batch_size 1%Q) (replicate batch_size 0%Q)
                batch_size sample_interval n selfn en = inr (selfn', en') /\
    train self (S n) batch_size sample_interval e = inr (selfn', en') /\
    same_data self selfn /\
    epoch_spec selfn en batch_size sample_interval n selfn' en' /\
    (Z.of_nat n mod sample_interval = 0 -> scores_appended selfn selfn' n) /\
    (Z.of_nat n mod sample_interval <> 0 -> scores_unchanged selfn selfn').
Proof.
  intros Hok Hnp Hsi.
  destruct (train_prefix self batch_size sample_interval e n Hok Hnp Hsi)
    as (selfn & en & Hrun & Hsame & Hnpn).
  destruct (train_epoch_run selfn en batch_size sample_interval n
              (dataset_ok_same _ _ Hsame Hok) Hnpn Hsi)
    as (self' & e' & Hep & Hspec & _ & _ & Hz & Hnz).
  exists selfn, en, self', e'.
  assert (Hep' : train_epoch (configured self) (y_train self)
                   (replicate batch_size 1%Q) (replicate batch_size 0%Q)
                   batch_size sample_interval n selfn en = inr (self', e')).
  { destruct Hsame as (H1 & H2 & _). unfold configured in *.
    now rewrite H1, H2 in Hep. }
  split; [exact Hrun|]. split; [exact Hep'|].
  split; [now rewrite train_succ, Hrun|].
  split; [exact Hsame|]. split; [exact Hspec|]. split; assumption.
Qed.





End TrainingProofs.

(** ** The outputs of the discriminator *)

Lemma sigmoid_range (v : R) : (0 < 1 / (1 + exp (- v)) < 1)%R.
Proof.
  pose proof (exp_pos (- v)) as Hp.
  split.
  - apply Rdiv_lt_0_compat; lra.
  - apply (Rmult_lt_reg_r (1 + exp (- v))); [lra|].
    unfold Rdiv. rewrite Rmult_assoc, Rinv_l by lra. lra.
Qed.

Lemma layers_sum_cons (a : R) (l : list R) :
  layers.sum (a :: l) = (a + layers.sum l)%R.
Proof. reflexivity. Qed.

Lemma sum_exp_nonneg (l : list R) : (0 <= layers.sum (map exp l))%R.
Proof.
  induction l as [|a l IH]; cbn [map]; [cbn; lra|].
  rewrite layers_sum_cons. pose proof (exp_pos a). lra.
Qed.

Lemma sum_exp_pos (z : list R) : z <> [] -> (0 < layers.sum (map exp z))%R.
Proof.
  destruct z as [|a z]; [congruence|]. intros _. cbn [map].
  rewrite layers_sum_cons.
  pose proof (exp_pos a). pose proof (sum_exp_nonneg z). lra.
Qed.

Lemma sum_scaled (c : R) (l : list R) :
  layers.sum (map (fun v => (exp v / c)%R) l) = (layers.sum (map exp l) / c)%R.
Proof.
  induction l as [|a l IH]; cbn [map].
  - cbn. unfold Rdiv. now rewrite Rmult_0_l.
  - rewrite !layers_sum_cons, IH. unfold Rdiv. ring.
Qed.

Lemma exp_le_sum (l : list R) :
  Forall (fun v => (exp v <= layers.sum (map exp l))%R) l.
Proof.
  induction l as [|a l IH]; constructor; cbn [map]; rewrite layers_sum_cons.
  - pose proof (sum_exp_nonneg l). lra.
  - eapply Forall_impl; [exact IH|]. intros v Hv. cbn beta in *.
    pose proof (exp_pos a). lra.
Qed.

Lemma softmax_distribution (z : list R) :
  z <> [] ->
  length (layers.softmax z) = length z /\
  Forall (fun p => (0 < p <= 1)%R) (layers.softmax z) /\
  layers.sum (layers.softmax z) = 1%R.
Proof.
  intros Hne. pose proof (sum_exp_pos z Hne) as Hpos.
  assert (Hsum : layers.sum (layers.softmax z) = 1%R).
  { unfold layers.softmax. rewrite sum_scaled. unfold Rdiv.
    apply Rinv_r. lra. }
  split; [unfold layers.softmax; now rewrite length_map|].
  split; [|exact Hsum].
  unfold layers.softmax. apply Forall_fmap.
  eapply Forall_impl; [apply (exp_le_sum z)|]. intros v Hv. cbn beta in *.
  unfold compose.
  pose proof (exp_pos v) as Hv0. split.
  - apply Rdiv_lt_0_compat; lra.
  - apply (Rmult_le_reg_r (layers.sum (map exp z))); [exact Hpos|].
    unfold Rdiv. rewrite Rmult_assoc, Rinv_l by lra. lra.
Qed.

(** C6. The discriminator maps one image of shape (28, 28, 1) to two
    outputs: a single validity score, the sigmoid of a pre-activation
    and so in [0, 1], and a softmax over exactly num_classes = 10
    classes: ten non-negative scores of sum 1. *)
Theorem discriminator_two_outputs (w : DiscriminatorWeights) (img : ndarray) :
  shape img = [28; 28; 1]%nat ->
  exists (v : R) (label : list R),
    discriminator w img = inr ([v], label) /\
    (0 <= v <= 1)%R /\
    num_classes = 10%nat /\
    length label = 10%nat /\
    Forall (fun p => (0 <= p <= 1)%R) label /\
    layers.sum label = 1%R.
Proof.
  intros Hs. unfold discriminator, shape_eqb, img_shape. rewrite Hs.
  rewrite bool_decide_eq_true_2 by reflexivity.
  set (f := features w img).
  set (z := map (fun j => (layers.dot (label_kernel w j) f + label_bias w j)%R)
                (seq 0 num_classes)).
  destruct (softmax_distribution z) as (Hlen & Hall & Hsum).
  { unfold z, num_classes. cbn. congruence. }
  eexists _, (layers.softmax z). split; [reflexivity|].
  split.
  { pose proof (sigmoid_range (layers.dot (validity_kernel w 0) f + validity_bias w 0)).
    lra. }
  split; [reflexivity|]. split.
  { rewrite Hlen. unfold z. now rewrite length_map, length_seq. }
  split; [|exact Hsum].
  eapply Forall_impl; [exact Hall|]. intros p Hp. cbn in Hp. lra.
Qed.

(** ** The definitions at work on the small instance *)

Lemma sample_random_contract : randint_contract sample_random.
Proof.
  intros lo hi n H. cbn [sample_random outcome].
  pose proof (Z.mod_pos_bound (Z.of_nat n) (hi - lo + 1)). lia.
Qed.

Lemma sample_np_random_contract : np_randint_contract sample_np_random.
Proof.
  intros low high n j H. cbn [sample_np_random np_outcome].
  pose proof (Z.mod_pos_bound (Z.of_nat (n + j)) (high - low)). lia.
Qed.

Lemma sample_image28 : image28 sample_image.
Proof. split; reflexivity. Qed.

Lemma flat_image28 (v : Z) : image28 (flat_image v).
Proof.
  split; [reflexivity|]. unfold well_formed, flat_image. cbn [data shape].
  now rewrite length_replicate.
Qed.


(** The walk of the sample generator starts at (7, 8) and turns around
    a square of four cells, so that the rows and columns 2 .. 13 are
    visible: 144 cells. *)
Example sample_walk :
  map (position sample_random) (seq 0 6)
  = [(7, 8); (8, 8); (8, 7); (7, 7); (7, 8); (8, 8)]
  /\ length (marked_cells (mask_array sample_random)) = 144%nat.
Proof. split; vm_compute; reflexivity. Qed.

Example sample_mask_pixels :
  match mask_default sample_image sample_random with
  | inr (out, s') =>
      np.getitem2 out 5 5 = Some (145 # 1) /\
      np.getitem2 out 13 13 = Some (121 # 1) /\
      np.getitem2 out 14 13 = Some 0%Q /\
      np.getitem2 out 27 27 = Some 0%Q /\
      calls s' = 42%nat
  | inl _ => False
  end.
Proof. vm_compute. repeat split; reflexivity. Qed.

(** The window of the start position marks nothing by itself: walking
    up forty times from (7, 7), the cell (12, 7) is within the radius of
    the start and stays hidden. *)
Example start_window_not_marked :
  let s := {| outcome := fun lo _ _ => lo; calls := 0 |} in
  position s 0 = (7, 7) /\ window (position s 0) 12 7 = true /\
  np.getitem2 (mask_array s) 12 7 = Some 0%Q /\
  np.getitem2 (mask_array s) 11 7 = Some 1%Q.
Proof. vm_compute. repeat split; reflexivity. Qed.

Example sample_mask_errors :
  mask_default small_image sample_random = inl AssertionError /\
  mask_default small_image_3d sample_random = inl AssertionError /\
  mask_default {| shape := [28; 28; 0]%nat; data := [] |} sample_random
  = inl IndexError.
Proof. repeat split; reflexivity. Qed.

(** Of the four masked test images of the sample object, whose predicted
    labels are 3, 5, 4, 7 for the true labels 3, 4, 3, 7, two are right;
    class 3 has recall 1/2, class 4 recall 0, class 7 recall 1, and a
    class without test image has no recall. *)
Example sample_scores :
  match test_masked_accuracy (K := toy_keras) sample_acgan 7 sample_env with
  | inr (self', _) =>
      accuracy_scores self' = [(Finite (2 # 4), 7%nat)] /\
      recall_scores self'
      = [([NaN; NaN; NaN; Finite (1 # 2); Finite (0 # 1); NaN; NaN;
           Finite (1 # 1); NaN; NaN], 7%nat)]
  | inl _ => False
  end.
Proof. vm_compute. split; reflexivity. Qed.

Lemma mask_keeps_region_zeroes_rest_witness :
  shape sample_image = [28; 28]%nat /\ well_formed sample_image /\
  exists out s',
    mask sample_image 40 5 sample_random = inr (out, s') /\
    shape out = [28; 28]%nat.
Proof.
  split; [reflexivity|]. split; [reflexivity|].
  destruct (mask_keeps_region_zeroes_rest sample_image 40 5 sample_random
              eq_refl eq_refl) as (out & s' & Hrun & Hs & _).
  exists out, s'. split; assumption.
Defined.

Lemma mask_region_is_random_walk_witness :
  randint_contract sample_random /\
  build_mask sample_random = inr (mask_array sample_random, advance sample_random 42).
Proof.
  split; [exact sample_random_contract|].
  destruct (mask_region_is_random_walk sample_random sample_random_contract)
    as (_ & Hrun & _).
  exact Hrun.
Defined.

Lemma visibility_region_never_empty_witness :
  shape sample_image = [28; 28]%nat /\ well_formed sample_image /\
  randint_contract sample_random /\
  (121 <= length (marked_cells (mask_array sample_random)))%nat.
Proof.
  split; [reflexivity|]. split; [reflexivity|].
  split; [exact sample_random_contract|].
  destruct (visibility_region_never_empty sample_image 40 5 sample_random
              eq_refl eq_refl sample_random_contract) as (_ & Hcount & _).
  exact Hcount.
Defined.

Lemma mask_accepts_only_28x28_witness :
  mask small_image 40 5 sample_random = inl AssertionError /\
  (exists out s', mask sample_image 40 5 sample_random = inr (out, s')) /\
  mask small_image_3d 40 5 sample_random = inl AssertionError.
Proof.
  split; [|split].
  - destruct (mask_accepts_only_28x28 small_image 40 5 sample_random) as (H & _).
    apply (H 2%nat 3%nat); [reflexivity|discriminate].
  - destruct (mask_accepts_only_28x28 sample_image 40 5 sample_random) as (_ & H & _).
    apply H. reflexivity.
  - destruct (mask_accepts_only_28x28 small_image_3d 40 5 sample_random) as (_ & _ & H).
    destruct (H 2%nat 3%nat 1%nat eq_refl) as (gray & _ & _ & _ & _ & Hne & _);
      [discriminate|].
    apply Hne. discriminate.
Defined.

Lemma mask_returns_28x28_witness :
  shape sample_image_3d = [28; 28; 1]%nat /\
  exists out s',
    mask sample_image_3d 40 5 sample_random = inr (out, s') /\
    shape out = [28; 28]%nat.
Proof.
  split; [reflexivity|].
  destruct (mask_returns_28x28 sample_image 40 5 sample_random) as (_ & _ & H).
  destruct (H eq_refl eq_refl) as (_ & _ & out & s' & Hrun & Hs).
  exists out, s'. split; assumption.
Defined.

Lemma discriminator_two_outputs_witness :
  shape sample_image_3d = [28; 28; 1]%nat /\
  exists (v : R) (label : list R),
    discriminator sample_weights sample_image_3d = inr ([v], label) /\
    length label = 10%nat /\ layers.sum label = 1%R.
Proof.
  split; [reflexivity|].
  destruct (discriminator_two_outputs sample_weights sample_image_3d eq_refl)
    as (v & label & Hrun & _ & _ & Hlen & _ & Hsum).
  exists v, label. repeat split; assumption.
Defined.




(* ================================================================== *)
(** * Further properties of the code *)

(** ** The mask array holds zeros and ones *)

Lemma mask_array_entry (s : RandomState) (i : nat) (m : Q) :
  data (mask_array s) !! i = Some m -> m = 0%Q \/ m = 1%Q.
Proof.
  intros Hm. destruct (mask_array_grid s) as [Hs Hl].
  assert (Hi : (i < 784)%nat) by (rewrite <- Hl; eapply lookup_lt_Some; exact Hm).
  pose proof (mask_array_lookup s (i / 28) (i mod 28)) as Hlook.
  unfold np.getitem2, np.ncols in Hlook. rewrite Hs in Hlook.
  assert (Hdiv : (i / 28 < 28)%nat) by (apply Nat.Div0.div_lt_upper_bound; lia).
  assert (Hmod : (i mod 28 < 28)%nat) by (apply Nat.mod_upper_bound; lia).
  replace (i / 28 * 28 + i mod 28)%nat with i in Hlook
    by (pose proof (Nat.div_mod_eq i 28); lia).
  rewrite Hlook in Hm by assumption.
  destruct (visibleb s (i / 28) (i mod 28)); injection Hm as <-; auto.
Qed.

Lemma Qmult_zero_zero (v : Q) : (v * 0 * 0)%Q = (v * 0)%Q.
Proof.
  destruct v as [n d]. unfold Qmult. cbn [Qnum Qden].
  now rewrite !Z.mul_0_r, !Pos.mul_1_r.
Qed.

Lemma zip_mult_twice (d : list Q) : forall md : list Q,
  (forall i m, md !! i = Some m -> m = 0%Q \/ m = 1%Q) ->
  zip_with Qmult (zip_with Qmult d md) md = zip_with Qmult d md.
Proof.
  induction d as [|v d IH]; intros [|m md] H; try reflexivity.
  cbn [zip_with]. f_equal.
  - destruct (H 0%nat m eq_refl) as [-> | ->].
    + apply Qmult_zero_zero.
    + now rewrite !Qmult_one.
  - apply IH. intros i m' Hi. apply (H (S i)). exact Hi.
Qed.

Lemma multiply_mask_twice (image : ndarray) (s : RandomState) :
  np.multiply (np.multiply image (mask_array s)) (mask_array s)
  = np.multiply image (mask_array s).
Proof.
  unfold np.multiply. cbn [shape data]. f_equal.
  apply zip_mult_twice. apply mask_array_entry.
Qed.

(** ** More on [mask] *)




(** X2. [mask] rejects every array that is neither two- nor
    three-dimensional with an AssertionError (a flattened image of 784
    values, for instance), and a three-dimensional array whose channel
    axis is empty with an IndexError, raised by [image[:,:,0]] before
    the assertion is reached. *)
Theorem mask_rejects_other_ranks
    (image : ndarray) (walk_length visible_radius : Z) (s : RandomState) :
  (length (shape image) <> 2%nat -> length (shape image) <> 3%nat ->
   mask image walk_length visible_radius s = inl AssertionError) /\
  (forall h w : nat, shape image = [h; w; 0%nat] ->
   mask image walk_length visible_radius s = inl IndexError).
Proof.
  split.
  - intros H2 H3. apply mask_assertion; [exact H3|].
    intros Heq. rewrite Heq in H2. apply H2. reflexivity.
  - intros h w Hs. now apply (mask_no_channel _ _ _ _ h w).
Qed.

Lemma mask_rejects_other_ranks_witness :
  mask {| shape := [784]%nat; data := data sample_image |} 40 5 sample_random
  = inl AssertionError /\
  mask {| shape := [28; 28; 0]%nat; data := [] |} 40 5 sample_random
  = inl IndexError.
Proof.
  split.
  - destruct (mask_rejects_other_ranks
                {| shape := [784]%nat; data := data sample_image |}
                40 5 sample_random) as (H & _).
    apply H; discriminate.
  - destruct (mask_rejects_other_ranks
                {| shape := [28; 28; 0]%nat; data := [] |}
                40 5 sample_random) as (_ & H).
    apply (H 28%nat 28%nat). reflexivity.
Defined.

Lemma masked_values_in_range (d md : list Q) (lo hi : Q) :
  (lo <= 0)%Q -> (0 <= hi)%Q ->
  Forall (fun v => (lo <= v <= hi)%Q) d ->
  (forall i m, md !! i = Some m -> m = 0%Q \/ m = 1%Q) ->
  Forall (fun v => (lo <= v <= hi)%Q) (zip_with Qmult d md).
Proof.
  intros Hlo Hhi Hd Hm. apply Forall_lookup. intros i v Hv.
  apply lookup_zip_with_Some in Hv as (a & m & -> & Ha & Hmi).
  rewrite Forall_lookup in Hd. specialize (Hd i a Ha).
  destruct (Hm i m Hmi) as [-> | ->].
  - rewrite Qmult_0_r. split; assumption.
  - rewrite Qmult_one. exact Hd.
Qed.

(** X3. Masking never takes a pixel out of the range of the image: if
    every pixel of a 28x28 image lies in an interval that contains 0
    (0..255 for the raw images, -1..1 for the normalised ones), so does
    every pixel of the masked image. *)
Theorem mask_preserves_range
    (image : ndarray) (walk_length visible_radius : Z) (s : RandomState)
    (lo hi : Q) :
  shape image = [28; 28]%nat ->
  (lo <= 0)%Q -> (0 <= hi)%Q ->
  Forall (fun v => (lo <= v <= hi)%Q) (data image) ->
  exists out s',
    mask image walk_length visible_radius s = inr (out, s') /\
    Forall (fun v => (lo <= v <= hi)%Q) (data out).
Proof.
  intros Hs Hlo Hhi Hd.
  exists (np.multiply image (mask_array s)), (advance s 42).
  split; [now apply mask_run_2d|].
  cbn [np.multiply data]. apply masked_values_in_range; try assumption.
  apply mask_array_entry.
Qed.

Lemma sample_image_range :
  Forall (fun v => (0 <= v <= 255)%Q) (data sample_image).
Proof.
  cbn [sample_image data]. apply Forall_fmap, Forall_forall. intros k _.
  unfold compose.
  pose proof (Nat.mod_upper_bound k 256 ltac:(lia)) as Hk.
  unfold Qle. cbn [inject_Z Qnum Qden]. lia.
Qed.

Lemma mask_preserves_range_witness :
  exists out s',
    mask sample_image 40 5 sample_random = inr (out, s') /\
    Forall (fun v => (0 <= v <= 255)%Q) (data out).
Proof.
  apply (mask_preserves_range sample_image 40 5 sample_random 0 255 eq_refl).
  - discriminate.
  - discriminate.
  - exact sample_image_range.
Defined.

(** X4. Masking again with the same walk changes nothing: from the same
    state of the generator, [mask] applied to a masked image returns
    that masked image. *)
Theorem mask_idempotent
    (image : ndarray) (walk_length visible_radius : Z) (s : RandomState) :
  shape image = [28; 28]%nat ->
  exists out s',
    mask image walk_length visible_radius s = inr (out, s') /\
    mask out walk_length visible_radius s = inr (out, s').
Proof.
  intros Hs.
  exists (np.multiply image (mask_array s)), (advance s 42).
  split; [now apply mask_run_2d|].
  rewrite mask_run_2d by exact Hs. now rewrite multiply_mask_twice.
Qed.

Lemma mask_idempotent_witness :
  exists out s',
    mask sample_image 40 5 sample_random = inr (out, s') /\
    mask out 40 5 sample_random = inr (out, s').
Proof. apply (mask_idempotent sample_image 40 5 sample_random eq_refl). Defined.

(** ** Normalising and rescaling *)

Lemma normalize_value_range (v : Q) :
  (0 <= v <= 255)%Q -> (-1 <= (v - (255 # 2)) / (255 # 2) <= 1)%Q.
Proof.
  intros H. split.
  - apply Qle_shift_div_l; [reflexivity|]. Lqa.lra.
  - apply Qle_shift_div_r; [reflexivity|]. Lqa.lra.
Qed.

Lemma normalize_range (a : ndarray) :
  Forall (fun v => (0 <= v <= 255)%Q) (data a) ->
  Forall (fun v => (-1 <= v <= 1)%Q) (data (normalize a)).
Proof.
  intros H. cbn [normalize data]. apply Forall_fmap.
  eapply Forall_impl; [exact H|]. intros v Hv. unfold compose.
  now apply normalize_value_range.
Qed.

(** X5. The images that [train] gives to the generator stay in the
    range of the normalisation: for a 28x28 image with pixels in
    0..255, the configured image (normalised, with a channel axis) is
    masked without error, and every pixel of the result is in
    [-1, 1]. *)
Theorem masked_training_image_range
    (a : ndarray) (s : RandomState) :
  image28 a -> Forall (fun v => (0 <= v <= 255)%Q) (data a) ->
  shape (np.expand_dims_last (normalize a)) = [28; 28; 1]%nat /\
  Forall (fun v => (-1 <= v <= 1)%Q) (data (np.expand_dims_last (normalize a))) /\
  exists out s',
    mask_default (np.expand_dims_last (normalize a)) s = inr (out, s') /\
    shape out = [28; 28]%nat /\
    Forall (fun v => (-1 <= v <= 1)%Q) (data out).
Proof.
  intros Ha Hd. pose proof (normalize_image28 a Ha) as [Hs Hwf].
  pose proof (normalize_range a Hd) as Hr.
  split; [cbn [np.expand_dims_last shape]; now rewrite Hs|].
  split; [exact Hr|].
  exists (np.multiply (normalize a) (mask_array s)), (advance s 42).
  split.
  { unfold mask_default. rewrite mask_expand_dims by assumption.
    now apply mask_run_2d. }
  split; [exact Hs|].
  cbn [np.multiply data]. apply masked_values_in_range; try assumption.
  - discriminate.
  - discriminate.
  - apply mask_array_entry.
Qed.

Lemma masked_training_image_range_witness :
  image28 sample_image /\
  Forall (fun v => (0 <= v <= 255)%Q) (data sample_image) /\
  exists out s',
    mask_default (np.expand_dims_last (normalize sample_image)) sample_random
    = inr (out, s') /\
    Forall (fun v => (-1 <= v <= 1)%Q) (data out).
Proof.
  split; [exact sample_image28|]. split; [exact sample_image_range|].
  destruct (masked_training_image_range sample_image sample_random
              sample_image28 sample_image_range)
    as (_ & _ & out & s' & Hrun & _ & Hr).
  exists out, s'. split; assumption.
Defined.

(** X6. The display scaling of [sample_images] undoes the normalisation
    of [train] up to the factor 255: rescaling a normalised pixel [v]
    gives [v / 255]; and it maps the range [-1, 1] of the generator's
    output into [0, 1], keeping the shape. *)
Theorem rescale_undoes_normalize (a : ndarray) :
  shape (rescale (normalize a)) = shape a /\
  Forall2 (fun v w => (w == v / 255)%Q) (data a) (data (rescale (normalize a))) /\
  (Forall (fun v => (-1 <= v <= 1)%Q) (data a) ->
   Forall (fun v => (0 <= v <= 1)%Q) (data (rescale a))).
Proof.
  split; [reflexivity|]. split.
  - cbn [rescale normalize data]. rewrite map_map.
    apply Forall2_fmap_r, Forall_Forall2_diag, Forall_forall.
    intros v _. unfold compose. cbn beta. field.
  - intros H. cbn [rescale data]. apply Forall_fmap.
    eapply Forall_impl; [exact H|]. intros v Hv. unfold compose.
    cbn beta in *. Lqa.lra.
Qed.

Lemma rescale_undoes_normalize_witness :
  Forall (fun v => (0 <= v <= 1)%Q) (data (rescale (normalize sample_image))).
Proof.
  destruct (rescale_undoes_normalize (normalize sample_image)) as (_ & _ & H).
  apply H. apply normalize_range. exact sample_image_range.
Defined.

(** ** The scores are proportions *)








Section ScoreProperties.

Context {K : Keras}.

Lemma predicted_label_range (self : ACGAN) (k : nat) (l : Z) :
  predicted_label self k = Some l -> 0 <= l < 10.
Proof.
  unfold predicted_label. intros H.
  destruct (X_test_masked self !! k) as [img|]; [|discriminate].
  cbn in H. injection H as <-.
  pose proof (discriminator_classes (net self) img) as Hlen.
  destruct (label_of_argmax (snd (discriminator_predict (net self) img)))
    as (i & -> & (v & Hv & _)).
  { destruct (snd (discriminator_predict (net self) img)); [discriminate|congruence]. }
  apply lookup_lt_Some in Hv. rewrite Hlen in Hv. unfold num_classes in Hv. lia.
Qed.



(** X9. The label predicted for a masked test image is always one of
    the ten classes 0..9, and there is one for every masked test
    image. *)
Theorem predicted_label_is_a_class (self : ACGAN) (k : nat) :
  (k < length (X_test_masked self))%nat ->
  exists l, predicted_label self k = Some l /\ 0 <= l < 10.
Proof.
  intros Hk. destruct (lookup_lt_is_Some_2 _ _ Hk) as [img Himg].
  assert (H : exists l, predicted_label self k = Some l).
  { unfold predicted_label. rewrite Himg. cbn. eauto. }
  destruct H as [l Hl]. exists l. split; [exact Hl|].
  now apply (predicted_label_range self k).
Qed.

End ScoreProperties.

(** ** The schedule of [train] *)

Section TrainProperties.

Context {K : Keras}.

Lemma train_schedule (self : ACGAN) (e : Env) (batch_size : nat)
    (sample_interval : Z) (epochs : nat) :
  dataset_ok self -> np_randint_contract (np_random e) -> sample_interval <> 0 ->
  exists self_end e_end,
    train self epochs batch_size sample_interval e = inr (self_end, e_end) /\
    same_data self self_end /\
    map snd (accuracy_scores self_end)
    = map snd (accuracy_scores self)
      ++ List.filter (fun ep => Z.of_nat ep mod sample_interval =? 0) (seq 0 epochs) /\
    map snd (recall_scores self_end)
    = map snd (recall_scores self)
      ++ List.filter (fun ep => Z.of_nat ep mod sample_interval =? 0) (seq 0 epochs).
Proof.
  intros Hok Hnp Hsi. induction epochs as [|n IH].
  - exists self, e. split; [reflexivity|]. split; [repeat split|].
    cbn [seq List.filter]. now rewrite !app_nil_r.
  - destruct IH as (selfn & en & Hn & Hsame & Hacc & Hrec).
    destruct (train_step self batch_size sample_interval e n Hok Hnp Hsi)
      as (s0 & e0 & selfn' & en' & Hn0 & Hep & Hn' & _ & Hspec & Hz & Hnz).
    rewrite Hn in Hn0. inversion Hn0; subst s0 e0.
    destruct (train_epoch_run selfn en batch_size sample_interval n
                (dataset_ok_same _ _ Hsame Hok)) as (s1 & e1 & Hep1 & _ & Hsame' & _).
    { destruct (train_prefix self batch_size sample_interval e n Hok Hnp Hsi)
        as (s2 & e2 & Hn2 & _ & Hnp2).
      rewrite Hn in Hn2. inversion Hn2; subst. exact Hnp2. }
    { exact Hsi. }
    assert (Heq : s1 = selfn').
    { pose proof Hsame as (H1 & H2 & _). unfold configured in Hep1.
      rewrite H1, H2 in Hep1. unfold configured in Hep.
      rewrite Hep in Hep1. now inversion Hep1. }
    subst s1.
    exists selfn', en'. split; [exact Hn'|].
    split; [eapply same_data_trans; eassumption|].
    rewrite seq_S, List.filter_app. cbn [Nat.add List.filter].
    destruct (Z.eqb_spec (Z.of_nat n mod sample_interval) 0) as [Hm|Hm].
    + destruct (Hz Hm) as [Ha Hr]. rewrite Ha, Hr, !map_app, Hacc, Hrec.
      cbn [map snd]. now rewrite <- !app_assoc.
    + destruct (Hnz Hm) as [Ha Hr]. rewrite Ha, Hr, Hacc, Hrec.
      now rewrite !app_nil_r.
Qed.



End TrainProperties.

(** ** A zero sample interval *)

Section ZeroInterval.

Context {K : Keras}.



End ZeroInterval.

(** ** The number of training steps *)

Section TrainingCounts.

Context {K : Keras}.




End TrainingCounts.

(** ** Building the object *)

Lemma mask_batch_elements (imgs : list ndarray) : forall s : RandomState,
  Forall image28 imgs ->
  list_comprehension mask_default imgs s
  = inr (imap (fun k img => np.multiply img (mask_array (advance s (42 * k)))) imgs,
         advance s (42 * length imgs)).
Proof.
  induction imgs as [|img imgs IH]; intros s Hall.
  - cbn [list_comprehension length imap]. now rewrite Nat.mul_0_r, advance_0.
  - apply Forall_cons in Hall as [[Hs _] Hall].
    cbn [list_comprehension]. unfold bind at 1.
    unfold mask_default at 1. rewrite mask_run_2d by exact Hs.
    unfold bind at 1. rewrite IH by exact Hall. unfold ret.
    cbn [imap length]. rewrite Nat.mul_0_r, advance_0, advance_advance.
    replace (42 + 42 * length imgs)%nat with (42 * S (length imgs))%nat by lia.
    assert (Himap :
      imap (fun k img => np.multiply img (mask_array (advance (advance s 42) (42 * k))))
           imgs
      = imap ((fun k img => np.multiply img (mask_array (advance s (42 * k)))) ∘ S)
             imgs).
    { apply imap_ext. intros k x _. unfold compose. rewrite advance_advance.
      replace (42 + 42 * k)%nat with (42 * S k)%nat by lia. reflexivity. }
    rewrite Himap. reflexivity.
Qed.

Lemma mask_batch_fails (good : list ndarray) (bad : ndarray) (rest : list ndarray)
    (h w : nat) : forall s : RandomState,
  Forall image28 good -> shape bad = [h; w] -> (h, w) <> (28, 28)%nat ->
  list_comprehension mask_default (good ++ bad :: rest) s = inl AssertionError.
Proof.
  induction good as [|img good IH]; intros s Hall Hs Hne.
  - cbn [app list_comprehension]. unfold bind at 1, mask_default.
    now rewrite (mask_assertion_2d _ _ _ _ h w).
  - apply Forall_cons in Hall as [[Hs' _] Hall].
    cbn [app list_comprehension]. unfold bind at 1.
    unfold mask_default at 1. rewrite mask_run_2d by exact Hs'.
    unfold bind at 1. now rewrite IH.
Qed.

Section ProgramProofs.

Context {K : Keras}.

(** X14. [__init__] builds the masked test set once: when the test
    images are 28x28, it returns an object with the data set as given,
    empty score lists, a combined model compiled with the discriminator
    frozen, and one masked image per test image, the k-th test image
    being masked with the 42 draws that follow the first 42 k; nothing
    else of the environment changes. *)
Theorem init_builds_masked_test_set (net0 : Net)
    (mnist : (list ndarray * list Z) * (list ndarray * list Z)) (e0 : Env) :
  Forall image28 (fst (snd mnist)) ->
  exists self e1,
    ACGAN_init net0 mnist e0 = inr (self, e1) /\
    net self = net0 /\ discriminator_trainable self = false /\
    X_train self = fst (fst mnist) /\ y_train self = snd (fst mnist) /\
    X_test self = fst (snd mnist) /\ y_test self = snd (snd mnist) /\
    accuracy_scores self = [] /\ recall_scores self = [] /\
    length (X_test_masked self) = length (X_test self) /\
    (forall k img, X_test self !! k = Some img ->
       X_test_masked self !! k
       = Some (np.multiply img (mask_array (advance (py_random e0) (42 * k))))) /\
    py_random e1 = advance (py_random e0) (42 * length (X_test self)) /\
    np_random e1 = np_random e0 /\ trace e1 = trace e0.
Proof.
  intros Himgs. unfold ACGAN_init.
  pose proof (mask_batch_elements (fst (snd mnist)) (py_random e0) Himgs) as Hrun.
  rewrite (bind_inr _ _ _ _ _ (with_random_run _ _ _ _ Hrun)).
  eexists _, _. split; [reflexivity|]. cbn [net discriminator_trainable X_train
    y_train X_test y_test X_test_masked accuracy_scores recall_scores
    py_random np_random trace].
  repeat (split; [reflexivity|]).
  split; [now rewrite length_imap|]. split.
  - intros k img Hk. rewrite list_lookup_imap, Hk. reflexivity.
  - repeat split.
Qed.

Lemma init_dataset_ok (net0 : Net)
    (mnist : (list ndarray * list Z) * (list ndarray * list Z)) (e0 : Env) :
  mnist_ok mnist ->
  exists self e1,
    ACGAN_init net0 mnist e0 = inr (self, e1) /\
    dataset_ok self /\ np_random e1 = np_random e0 /\
    accuracy_scores self = [] /\ recall_scores self = [].
Proof.
  intros (Hne & Htrain & Hy & Htest & H100 & Hyt). unfold ACGAN_init.
  pose proof (mask_batch_elements (fst (snd mnist)) (py_random e0) Htest) as Hrun.
  rewrite (bind_inr _ _ _ _ _ (with_random_run _ _ _ _ Hrun)).
  eexists _, _. split; [reflexivity|]. split.
  - unfold dataset_ok. cbn [X_train y_train X_test y_test X_test_masked].
    rewrite length_imap. repeat split; try assumption. now symmetry.
  - repeat split.
Qed.

Lemma seq_offset (len : nat) : forall start : nat,
  seq start len = map (Nat.add start) (seq 0 len).
Proof.
  induction len as [|len IH]; intros start; [reflexivity|].
  cbn [seq map]. rewrite Nat.add_0_r. f_equal.
  rewrite (IH (S start)), (IH 1%nat), map_map. apply map_ext. intros i. lia.
Qed.

Lemma filter_map_swap {A B : Type} (P : B -> bool) (f : A -> B) (l : list A) :
  List.filter P (map f l) = map f (List.filter (fun a => P (f a)) l).
Proof.
  induction l as [|a l IH]; [reflexivity|].
  cbn [map List.filter]. destruct (P (f a)); cbn [map]; now rewrite IH.
Qed.

Lemma multiples_chunk (m : nat) :
  List.filter (fun ep => Z.of_nat ep mod 200 =? 0) (seq (200 * m) 200) = [(200 * m)%nat].
Proof.
  rewrite seq_offset, filter_map_swap.
  rewrite (List.filter_ext_in _ (fun i => (i =? 0)%nat)).
  - change (List.filter (fun i => (i =? 0)%nat) (seq 0 200)) with [0%nat].
    cbn [map]. now rewrite Nat.add_0_r.
  - intros i Hi. apply in_seq in Hi.
    replace (Z.of_nat (200 * m + i)) with (Z.of_nat i + Z.of_nat m * 200) by lia.
    rewrite Z.mod_add by lia. rewrite Z.mod_small by lia.
    destruct (Nat.eqb_spec i 0) as [->|Hne]; [reflexivity|].
    apply Z.eqb_neq. lia.
Qed.

Lemma multiples_filter (m : nat) :
  List.filter (fun ep => Z.of_nat ep mod 200 =? 0) (seq 0 (200 * m))
  = map (fun j => (200 * j)%nat) (seq 0 m).
Proof.
  induction m as [|m IH]; [reflexivity|].
  replace (200 * S m)%nat with (200 * m + 200)%nat by lia.
  rewrite seq_app, List.filter_app, IH. cbn [Nat.add].
  rewrite multiples_chunk, seq_S, map_app. reflexivity.
Qed.

Lemma main_schedule :
  List.filter (fun ep => Z.of_nat ep mod 200 =? 0) (seq 0 14000)
  = map (fun j => (200 * j)%nat) (seq 0 70).
Proof. exact (multiples_filter 70). Qed.

(** X15. The program runs to the end on a well-formed data set: with
    28x28 training and test images, one label per image and at least
    the 100 test images that are plotted, [ACGAN()] followed by
    [train(epochs=14000, batch_size=32, sample_interval=200)] raises no
    exception, and leaves 70 accuracy scores and 70 lists of recalls,
    those of the epochs 0, 200, ..., 13800. *)
Theorem main_runs (net0 : Net)
    (mnist : (list ndarray * list Z) * (list ndarray * list Z)) (e0 : Env) :
  mnist_ok mnist -> np_randint_contract (np_random e0) ->
  exists self_end e_end,
    main net0 mnist e0 = inr (self_end, e_end) /\
    map snd (accuracy_scores self_end) = map (fun j => (200 * j)%nat) (seq 0 70) /\
    map snd (recall_scores self_end) = map (fun j => (200 * j)%nat) (seq 0 70) /\
    length (accuracy_scores self_end) = 70%nat /\
    X_test self_end = fst (snd mnist) /\
    length (X_test_masked self_end) = length (fst (snd mnist)).
Proof.
  intros Hok Hnp.
  destruct (init_dataset_ok net0 mnist e0 Hok)
    as (self & e1 & Hinit & Hdata & Hnp1 & Hacc0 & Hrec0).
  destruct (train_schedule self e1 32 200 14000 Hdata)
    as (self_end & e_end & Hrun & Hsame & Hacc & Hrec).
  { rewrite Hnp1. exact Hnp. }
  { discriminate. }
  exists self_end, e_end.
  split; [unfold main; now rewrite (bind_inr _ _ _ _ _ Hinit)|].
  rewrite Hacc0 in Hacc. rewrite Hrec0 in Hrec.
  cbn [map] in Hacc, Hrec. rewrite app_nil_l, main_schedule in Hacc, Hrec.
  split; [exact Hacc|]. split; [exact Hrec|]. split.
  { apply (f_equal (@length nat)) in Hacc.
    now rewrite !length_map, length_seq in Hacc. }
  destruct Hsame as (_ & _ & H3 & _ & H5 & _).
  assert (Hinit' := Hinit). unfold ACGAN_init, bind in Hinit'.
  destruct (with_random _ e0) as [err|[masked e2]] eqn:Hm; [discriminate|].
  unfold ret in Hinit'. inversion Hinit'; subst self e1. cbn in H3, H5.
  split; [exact H3|]. rewrite H5.
  destruct Hok as (_ & _ & _ & Htest & _).
  pose proof (mask_batch_elements (fst (snd mnist)) (py_random e0) Htest) as Hb.
  rewrite (with_random_run _ _ _ _ Hb) in Hm. inversion Hm. now rewrite length_imap.
Qed.

(** X16. [__init__] fails on a malformed test set: if the first test
    image that is not 28x28 is two-dimensional, masking the test set
    raises an AssertionError and no object is built. *)
Theorem init_rejects_bad_test_image (net0 : Net)
    (X_train : list ndarray) (y_train : list Z)
    (good : list ndarray) (bad : ndarray) (rest : list ndarray) (y_test : list Z)
    (h w : nat) (e0 : Env) :
  Forall image28 good -> shape bad = [h; w] -> (h, w) <> (28, 28)%nat ->
  ACGAN_init net0 ((X_train, y_train), (good ++ bad :: rest, y_test)) e0
  = inl AssertionError.
Proof.
  intros Hgood Hs Hne. unfold ACGAN_init, bind, with_random. cbn [fst snd].
  now rewrite (mask_batch_fails good bad rest h w).
Qed.

End ProgramProofs.

(** ** The further properties on the small instance *)

Lemma sample_mnist_ok : mnist_ok sample_mnist.
Proof.
  unfold mnist_ok, sample_mnist. cbn [fst snd].
  split; [discriminate|]. split.
  { apply Forall_cons. split; [apply sample_image28|].
    apply Forall_cons. split; [apply flat_image28|]. apply Forall_nil_2. }
  split; [reflexivity|]. split; [apply Forall_replicate, sample_image28|].
  split; [now rewrite length_replicate|now rewrite !length_replicate].
Qed.




Lemma predicted_label_is_a_class_witness :
  exists l, predicted_label (K := toy_keras) sample_acgan 0 = Some l /\ 0 <= l < 10.
Proof.
  apply (predicted_label_is_a_class (K := toy_keras) sample_acgan 0).
  cbn. lia.
Defined.





Lemma init_builds_masked_test_set_witness :
  exists self e1,
    ACGAN_init (K := toy_keras) 0%nat sample_mnist sample_env = inr (self, e1) /\
    length (X_test_masked self) = 100%nat /\
    calls (py_random e1) = 4200%nat.
Proof.
  destruct (init_builds_masked_test_set (K := toy_keras) 0%nat sample_mnist sample_env)
    as (self & e1 & Hrun & _ & _ & _ & _ & Hx & _ & _ & _ & Hlen & _ & Hr & _).
  { apply Forall_replicate, sample_image28. }
  exists self, e1. split; [exact Hrun|]. split.
  - rewrite Hlen, Hx. cbn [sample_mnist fst snd]. now rewrite length_replicate.
  - rewrite Hr, Hx. cbn [sample_mnist fst snd]. now rewrite length_replicate.
Defined.

Lemma main_runs_witness :
  mnist_ok sample_mnist /\
  exists self_end e_end,
    main (K := toy_keras) 0%nat sample_mnist sample_env = inr (self_end, e_end) /\
    length (accuracy_scores self_end) = 70%nat.
Proof.
  split; [exact sample_mnist_ok|].
  destruct (main_runs (K := toy_keras) 0%nat sample_mnist sample_env
              sample_mnist_ok sample_np_random_contract)
    as (self_end & e_end & Hrun & _ & _ & Hlen & _).
  exists self_end, e_end. split; [exact Hrun|exact Hlen].
Defined.

Lemma init_rejects_bad_test_image_witness :
  ACGAN_init (K := toy_keras) 0%nat
    (([sample_image], [0]), ([sample_image] ++ small_image :: [sample_image], [1; 2; 3]))
    sample_env
  = inl AssertionError.
Proof.
  apply (init_rejects_bad_test_image (K := toy_keras) 0%nat
           [sample_image] [0] [sample_image] small_image [sample_image] [1; 2; 3]
           2%nat 3%nat sample_env).
  - apply Forall_cons. split; [apply sample_image28|apply Forall_nil_2].
  - reflexivity.
  - discriminate.
Defined.

(** ** Too few test images to plot *)

Lemma bind_inl {St A B : Type} (m : M St A) (k : A -> M St B) s err :
  m s = inl err -> bind m k s = inl err.
Proof. intros H. unfold bind. now rewrite H. Qed.



Section SampleImages.

Context {K : Keras}.


(** X18. [train] cannot draw a batch from an empty training set: with no
    training image, the first epoch ends in the ValueError of
    [np.random.randint(0, 0, batch_size)]. *)
Theorem train_empty_training_set (self : ACGAN) (e : Env) (epochs batch_size : nat)
    (sample_interval : Z) :
  X_train self = [] ->
  train self (S epochs) batch_size sample_interval e = inl ValueError.
Proof.
  intros Hx. unfold train. rewrite Hx. cbn [map length seq for_each].
  apply bind_inl. unfold train_epoch. apply bind_inl. reflexivity.
Qed.

End SampleImages.


Lemma train_empty_training_set_witness :
  train (K := toy_keras)
    {| net := 0%nat : @Net toy_keras; discriminator_trainable := false;
       X_train := []; y_train := [];
       X_test := []; y_test := []; X_test_masked := [];
       accuracy_scores := []; recall_scores := [] |} 1 32 200 sample_env
  = inl ValueError.
Proof. apply (train_empty_training_set (K := toy_keras)). reflexivity. Defined.

(** ** At least 234 pixels are hidden *)

Lemma interval_count_le (lo w : Z) (n : nat) :
  0 <= w ->
  (length (List.filter (fun x => (lo <=? Z.of_nat x)%Z && (Z.of_nat x <=? lo + w)%Z)
                       (seq 0 n))
   <= Z.to_nat (w + 1))%nat.
Proof.
  intros Hw.
  set (l := List.filter _ (seq 0 n)).
  assert (Hnd : List.NoDup l) by (apply List.NoDup_filter, seq_NoDup).
  assert (Hincl : incl l (map Z.to_nat (range lo (lo + w + 1)))).
  { intros x Hx. unfold l in Hx. apply filter_In in Hx as [_ Hx].
    apply andb_prop in Hx as [H1 H2]. apply Z.leb_le in H1, H2.
    apply in_map_iff. exists (Z.of_nat x). split; [lia|]. apply in_range. lia. }
  pose proof (List.NoDup_incl_length Hnd Hincl) as Hlen.
  unfold range in Hlen. rewrite !length_map, length_seq in Hlen.
  replace (lo + w + 1 - lo) with (w + 1) in Hlen by lia. exact Hlen.
Qed.

Lemma band_count (a wa b wb : Z) :
  0 <= wa -> 0 <= wb ->
  (length (List.filter (band a wa b wb) grid_cells)
   <= Z.to_nat (wa + 1) * Z.to_nat (wb + 1))%nat.
Proof.
  intros Ha Hb. unfold band, grid_cells.
  rewrite (filter_prod_length
             (fun x => (a <=? Z.of_nat x) && (Z.of_nat x <=? a + wa))
             (fun y => (b <=? Z.of_nat y) && (Z.of_nat y <=? b + wb))).
  apply Nat.mul_le_mono; now apply interval_count_le.
Qed.

Lemma window_band (p : Z * Z) (c : nat * nat) :
  window p (fst c) (snd c) = band (fst p - 5) 10 (snd p - 5) 10 c.
Proof.
  apply Bool.eq_iff_eq_true. unfold window, band, chebyshev, VISIBLE_RADIUS.
  cbn [fst snd]. rewrite !andb_true_iff, !Z.leb_le. lia.
Qed.

Lemma new_cells (p : Z * Z) (d : Z) :
  exists a wa b wb,
    0 <= wa /\ 0 <= wb /\
    (Z.to_nat (wa + 1) * Z.to_nat (wb + 1) <= 11)%nat /\
    forall c, window (move p d) (fst c) (snd c) = true ->
              window p (fst c) (snd c) = true \/ band a wa b wb c = true.
Proof.
  destruct p as [r col]. unfold move. cbn [fst snd].
  destruct (Z.eqb_spec d 0); [|destruct (Z.eqb_spec d 1);
    [|destruct (Z.eqb_spec d 2); [|destruct (Z.eqb_spec d 3)]]].
  - exists (r - 6), 0, (col - 5), 10. repeat split; try lia.
    intros c. rewrite !window_band. unfold band. cbn [fst snd].
    rewrite !andb_true_iff, !Z.leb_le. lia.
  - exists (r - 5), 10, (col + 6), 0. repeat split; try lia.
    intros c. rewrite !window_band. unfold band. cbn [fst snd].
    rewrite !andb_true_iff, !Z.leb_le. lia.
  - exists (r + 6), 0, (col - 5), 10. repeat split; try lia.
    intros c. rewrite !window_band. unfold band. cbn [fst snd].
    rewrite !andb_true_iff, !Z.leb_le. lia.
  - exists (r - 5), 10, (col - 6), 0. repeat split; try lia.
    intros c. rewrite !window_band. unfold band. cbn [fst snd].
    rewrite !andb_true_iff, !Z.leb_le. lia.
  - exists 0, 0, 0, 0. repeat split; try lia. intros c H. now left.
Qed.

Lemma filter_or_length {A : Type} (P Q : A -> bool) (l : list A) :
  (length (List.filter (fun a => P a || Q a) l)
   <= length (List.filter P l) + length (List.filter Q l))%nat.
Proof.
  induction l as [|a l IH]; [reflexivity|].
  cbn [List.filter]. destruct (P a), (Q a); cbn [orb length]; lia.
Qed.

Lemma seen_by_count (s : RandomState) (k : nat) :
  (length (List.filter (seen_by s (S k)) grid_cells) <= 121 + 11 * k)%nat.
Proof.
  induction k as [|k IH].
  - etransitivity; [|apply (band_count (fst (position s 1) - 5) 10
                                        (snd (position s 1) - 5) 10); lia].
    apply filter_length_le. intros c _ H. unfold seen_by in H.
    cbn [seq existsb] in H. rewrite orb_false_r in H.
    now rewrite <- window_band.
  - destruct (new_cells (position s (S k)) (step_drawn s (S k)))
      as (a & wa & b & wb & Hwa & Hwb & Harea & Hnew).
    assert (Hmove : move (position s (S k)) (step_drawn s (S k)) = position s (S (S k))).
    { rewrite move_direction. reflexivity. }
    rewrite Hmove in Hnew.
    etransitivity; [apply (filter_length_le _
                             (fun c => seen_by s (S k) c || band a wa b wb c))|].
    { intros c _ H. unfold seen_by in H. rewrite seq_S, existsb_app in H.
      cbn [Nat.add existsb] in H. rewrite orb_false_r in H.
      apply orb_true_iff in H as [H|H].
      - unfold seen_by. rewrite H. reflexivity.
      - destruct (Hnew c H) as [Hold|Hband].
        + apply orb_true_iff. left. unfold seen_by. apply existsb_exists.
          exists (S k). split; [apply in_seq; lia|exact Hold].
        + rewrite Hband. apply orb_true_r. }
    etransitivity; [apply filter_or_length|].
    pose proof (band_count a wa b wb Hwa Hwb). lia.
Qed.

Lemma marked_cells_seen (s : RandomState) :
  marked_cells (mask_array s) = List.filter (seen_by s 40) grid_cells.
Proof.
  unfold marked_cells. apply List.filter_ext_in. intros [x y] Hin.
  unfold grid_cells in Hin. apply in_prod_iff in Hin as [Hx Hy].
  apply in_seq in Hx, Hy. cbn [fst snd].
  rewrite mask_array_lookup by lia.
  change (seen_by s 40 (x, y)) with (visibleb s x y).
  now destruct (visibleb s x y).
Qed.

Lemma filter_negb_length {A : Type} (P : A -> bool) (l : list A) :
  (length (List.filter P l) + length (List.filter (fun a => negb (P a)) l))%nat
  = length l.
Proof.
  induction l as [|a l IH]; [reflexivity|].
  cbn [List.filter]. destruct (P a); cbn [negb length]; lia.
Qed.

(** X19. The walk cannot uncover the whole image.  Whatever the draws,
    at most 550 of the 784 cells of the mask are marked: the first
    window has at most 121 cells and each of the 39 later steps, being a
    unit step, adds at most a row or a column of 11.  So at least 234
    pixels of every masked image are zero. *)
Theorem mask_hides_at_least_234
    (image : ndarray) (walk_length visible_radius : Z) (s : RandomState) :
  shape image = [28; 28]%nat -> well_formed image ->
  (length (marked_cells (mask_array s)) <= 550)%nat /\
  exists out s',
    mask image walk_length visible_radius s = inr (out, s') /\
    (234 <= length (zero_cells out))%nat.
Proof.
  intros Hs Hwf.
  assert (Hmarked : (length (marked_cells (mask_array s)) <= 550)%nat).
  { rewrite marked_cells_seen. pose proof (seen_by_count s 39). lia. }
  split; [exact Hmarked|].
  exists (np.multiply image (mask_array s)), (advance s 42).
  split; [now apply mask_run_2d|].
  pose proof (filter_negb_length (seen_by s 40) grid_cells) as Hsplit.
  rewrite <- marked_cells_seen in Hsplit.
  assert (Hgrid : length grid_cells = 784%nat) by reflexivity.
  assert (Hle : (length (List.filter (fun c => negb (seen_by s 40 c)) grid_cells)
                 <= length (zero_cells (np.multiply image (mask_array s))))%nat).
  { apply filter_length_le. intros [x y] Hin Hhid.
    unfold grid_cells in Hin. apply in_prod_iff in Hin as [Hx Hy].
    apply in_seq in Hx, Hy. cbn [fst snd].
    destruct (image_lookup image x y Hs Hwf ltac:(lia) ltac:(lia)) as [v Hv].
    rewrite (masked_pixel image s x y v) by (try assumption; lia).
    change (seen_by s 40 (x, y)) with (visibleb s x y) in Hhid.
    destruct (visibleb s x y); [discriminate|].
    cbn [is_zero]. apply Qeq_bool_iff. apply Qmult_0_r. }
  lia.
Qed.

Lemma mask_hides_at_least_234_witness :
  exists out s',
    mask sample_image 40 5 sample_random = inr (out, s') /\
    (234 <= length (zero_cells out))%nat.
Proof.
  destruct (mask_hides_at_least_234 sample_image 40 5 sample_random eq_refl eq_refl)
    as (_ & H).
  exact H.
Defined.

(** ** Shapes of the models *)

Lemma ceil_div_1 (n : nat) : ceil_div n 1 = n.
Proof. unfold ceil_div. rewrite Nat.div_1_r. lia. Qed.

(** X20. The generator keeps the shape of an image: its four
    convolutions have stride 1 and same padding and the last has
    [channels] filters, so an input of shape (h, w, c) gives an output of
    shape (h, w, channels), (28, 28, 1) for the images of the program,
    which is the input shape of the discriminator.  The discriminator's
    stack brings a 28x28x1 image to 4x4x128 = 2048 features, and the
    number of features does not depend on the number of input
    channels. *)
Theorem model_shapes :
  (forall h w c channels : nat,
     sequential_shape (generator_layers channels) [h; w; c] = Some [h; w; channels]) /\
  sequential_shape (generator_layers 1) img_shape = Some img_shape /\
  sequential_shape discriminator_layers img_shape = Some [2048%nat] /\
  (forall h w c c' : nat,
     sequential_shape discriminator_layers [h; w; c]
     = sequential_shape discriminator_layers [h; w; c']).
Proof.
  assert (Hgen : forall h w c channels : nat,
            sequential_shape (generator_layers channels) [h; w; c]
            = Some [h; w; channels]).
  { intros h w c channels. unfold generator_layers.
    cbn [sequential_shape output_shape Nat.eqb]. now rewrite !ceil_div_1. }
  split; [exact Hgen|]. split; [apply Hgen|]. split; [reflexivity|].
  intros h w c c'. reflexivity.
Qed.
